(** * Monad dispute-resolver backend: log classification, ABI cache,
      request handling

    A shallow embedding of the JavaScript sources
    - [utils/blockchain.js]      (class [BlockchainService]),
    - [utils/abiFetcher.js]      (class [ABIFetcher]),
    - [services/aiService.js]    (class [AIService]),
    - [controllers/disputeController.js] ([analyzeTransaction]),
    followed by the properties of the classification pipeline.

    Conventions.  A JavaScript expression that may throw is a [Result];
    a [try { .. } catch { .. }] block is a [match] on that result.  Code
    that belongs to a library (ethers, axios, JSON) is not part of the
    repository: it is an interface (a type class) whose methods return
    whatever the library may return, and every theorem holds for all its
    implementations.  Redis is a store of values with expiry times.
    Strings are byte strings; [toLowerCase] is the ASCII one, which is
    what JavaScript does on hexadecimal addresses and on ASCII event
    names. *)

From Stdlib Require Import ZArith String Ascii Bool Lia HexString DecimalString.
From stdpp Require Import gmap strings list.

Open Scope Z_scope.

(** ** Exceptions *)

Inductive Result (A : Type) : Type :=
| Ok (a : A)
| Throw (message : string).
Arguments Ok {A} a.
Arguments Throw {A} message.

#[global] Instance Result_ret : MRet Result := @Ok.
#[global] Instance Result_bind : MBind Result :=
  λ A B f m, match m with Ok a => f a | Throw e => Throw e end.

Definition throws {A} (m : Result A) : bool :=
  match m with Ok _ => false | Throw _ => true end.

(** ** JavaScript strings *)

Module Js.

Definition lowerChar (c : ascii) : ascii :=
  let n := nat_of_ascii c in
  if ((65 <=? n) && (n <=? 90))%nat then ascii_of_nat (n + 32) else c.

(** [s.toLowerCase()] *)
Fixpoint toLowerCase (s : string) : string :=
  match s with
  | EmptyString => EmptyString
  | String c t => String (lowerChar c) (toLowerCase t)
  end.

(** [s.includes(sub)] *)
Fixpoint includes (s sub : string) : bool :=
  String.prefix sub s ||
  match s with
  | EmptyString => false
  | String _ t => includes t sub
  end.

(** [s.slice(n)] for [0 <= n] *)
Fixpoint slice (n : nat) (s : string) : string :=
  match n, s with
  | O, _ => s
  | S _, EmptyString => EmptyString
  | S k, String _ t => slice k t
  end.

(** Truthiness of a string: [""] is falsy. *)
Definition truthyString (s : string) : bool :=
  negb (String.eqb s "").

(** Truthiness of a value that is a string or [undefined]. *)
Definition truthyOpt (v : option string) : bool :=
  match v with Some s => truthyString s | None => false end.

(** JSON values, with [null]; [undefined] is [None] of [option Json]. *)
#[warnings="-register-all"]
Inductive Json : Type :=
| JNull
| JBool (b : bool)
| JNum (n : Z)
| JStr (s : string)
| JArr (items : list Json)
| JObj (fields : list (string * Json)).

(** Truthiness of a JavaScript value. *)
Definition truthy (v : Json) : bool :=
  match v with
  | JNull => false
  | JBool b => b
  | JNum n => negb (n =? 0)
  | JStr s => truthyString s
  | JArr _ | JObj _ => true
  end.

Definition truthyU (v : option Json) : bool :=
  match v with Some j => truthy j | None => false end.

Fixpoint assoc (k : string) (fields : list (string * Json)) : option Json :=
  match fields with
  | [] => None
  | (k', v) :: rest =>
      match assoc k rest with
      | Some w => Some w
      | None => if String.eqb k k' then Some v else None
      end
  end.

(** [v.k]: a [TypeError] on [null] and [undefined], [undefined] on a
    value without that property.  The only keys used are [status],
    [result] and [abi], which no array, string, number or boolean has. *)
Definition prop (v : option Json) (k : string) : Result (option Json) :=
  match v with
  | None => Throw ("Cannot read properties of undefined (reading '" +:+ k +:+ "')")
  | Some JNull => Throw ("Cannot read properties of null (reading '" +:+ k +:+ "')")
  | Some (JObj fields) => Ok (assoc k fields)
  | Some _ => Ok None
  end.

(** A [Set], in insertion order as [Array.from] lists it. *)
Definition setAdd {A} `{EqDecision A} (x : A) (s : list A) : list A :=
  if decide (x ∈ s) then s else s ++ [x].

End Js.

(** ** The ethers library, as the code uses it *)

Module Ethers.

(** A log of a receipt. *)
Record RawLog := {
  address : string;
  topics : list string;
  data : string;
  logIndex : Z;
  blockNumber : Z
}.

(** One decoded argument: a value, written as its [toString()], or a
    decoding error that is thrown when the argument is read. *)
Inductive Arg :=
| ArgValue (shown : string)
| ArgError (message : string).

(** What [parseLog] returns when the topic hash is one of the ABI's. *)
Record LogDescription := { name : string; args : list Arg }.

Class Lib := {
  Interface : Type;
  (** [new ethers.Interface(abi)] *)
  newInterface : Js.Json → Result Interface;
  (** [iface.parseLog(log)]: [null] when no event of the ABI has the
      log's topic hash *)
  parseLog : Interface → RawLog → Result (option LogDescription);
  (** [ethers.getAddress(s)]: the checksummed address, or throws *)
  getAddress : string → Result string
}.

Record Transaction := {
  tx_from : string;
  tx_to : option string;
  tx_value : Z;
  tx_gasPrice : Z;
  tx_nonce : Z;
  tx_data : string
}.

(** [status] is [null] on receipts that carry none. *)
Record Receipt := {
  rc_blockNumber : Z;
  rc_gasUsed : Z;
  rc_status : option Z;
  rc_logs : list RawLog
}.

Record Block := { timestamp : Z }.

(** The node behind [ethers.JsonRpcProvider], and the read-only calls of
    an [ethers.Contract] bound to it.  A lookup returns [null] ([None])
    when the node has no such object and throws on a transport error.
    The node answers a query in the same way throughout one request. *)
Class Provider := {
  getTransaction : string → Result (option Transaction);
  getTransactionReceipt : string → Result (option Receipt);
  getBlock : Z → Result (option Block);
  Contract : Type;
  (** [new ethers.Contract(target, abi, provider)] *)
  newContract : option string → Js.Json → Result Contract;
  (** [(await c.balanceOf(owner)).toString()] *)
  balanceOf : Contract → string → Result string;
  symbol : Contract → Result string;
  tokenName : Contract → Result string;
  (** [await c.decimals()]: the number, which ethers hands over as a
      [BigInt] *)
  decimals : Contract → Result Z
}.

(** The message of the [RangeError] that reading [args[i]] past the end
    throws. *)
Definition outOfRange : string := "out of result range".

(** [d.args[i]]: the value, which is never [undefined]; reading past the
    end throws, and so does reading an argument that did not decode. *)
Definition argAt (d : LogDescription) (i : nat) : Result (option string) :=
  match args d !! i with
  | None => Throw outOfRange
  | Some (ArgValue s) => Ok (Some s)
  | Some (ArgError m) => Throw m
  end.

(** [v.toString()] *)
Definition toString (v : option string) : Result string :=
  match v with
  | Some s => Ok s
  | None => Throw "Cannot read properties of undefined (reading 'toString')"
  end.

End Ethers.

(** ** utils/blockchain.js *)

Module BlockchainService.
Import Ethers.

Definition ERC20_ABI : Js.Json :=
  Js.JArr [
    Js.JStr "event Transfer(address indexed from, address indexed to, uint256 value)";
    Js.JStr "event Deposit(address indexed from, uint256 value)";
    Js.JStr "function balanceOf(address owner) view returns (uint256)";
    Js.JStr "function decimals() view returns (uint8)";
    Js.JStr "function symbol() view returns (string)";
    Js.JStr "function name() view returns (string)" ].

Definition ERC721_ABI : Js.Json :=
  Js.JArr [
    Js.JStr "event Transfer(address indexed from, address indexed to, uint256 indexed tokenId)";
    Js.JStr "function ownerOf(uint256 tokenId) view returns (address)";
    Js.JStr "function balanceOf(address owner) view returns (uint256)";
    Js.JStr "function name() view returns (string)";
    Js.JStr "function symbol() view returns (string)" ].

(** An entry of [transfers]: [value] is set by the ERC-20 branch and
    [tokenId] by the ERC-721 branch. *)
Record TransferRecord := {
  tr_type : string;
  tr_from : option string;
  tr_to : option string;
  tr_value : option string;
  tr_tokenId : option string;
  tr_logIndex : Z;
  tr_blockNumber : Z
}.

Record DepositRecord := {
  dep_type : string;
  dep_from : option string;
  dep_value : string;
  dep_logIndex : Z;
  dep_blockNumber : Z
}.

Record RawEvent := {
  raw_type : string;
  raw_topics : list string;
  raw_data : string;
  raw_logIndex : Z;
  raw_blockNumber : Z;
  raw_address : string
}.

Record ParsedLogs := {
  transfers : list TransferRecord;
  deposits : list DepositRecord;
  otherEvents : list RawEvent;
  contractType : string;
  senderAddresses : list (option string);
  receiverAddresses : list (option string)
}.

Definition emptyParsedLogs : ParsedLogs :=
  {| transfers := []; deposits := []; otherEvents := [];
     contractType := "Unknown";
     senderAddresses := []; receiverAddresses := [] |}.

Definition pushTransfer (r : TransferRecord) (pl : ParsedLogs) : ParsedLogs :=
  {| transfers := transfers pl ++ [r]; deposits := deposits pl;
     otherEvents := otherEvents pl; contractType := contractType pl;
     senderAddresses := senderAddresses pl;
     receiverAddresses := receiverAddresses pl |}.

Definition pushDeposit (r : DepositRecord) (pl : ParsedLogs) : ParsedLogs :=
  {| transfers := transfers pl; deposits := deposits pl ++ [r];
     otherEvents := otherEvents pl; contractType := contractType pl;
     senderAddresses := senderAddresses pl;
     receiverAddresses := receiverAddresses pl |}.

Definition pushOther (r : RawEvent) (pl : ParsedLogs) : ParsedLogs :=
  {| transfers := transfers pl; deposits := deposits pl;
     otherEvents := otherEvents pl ++ [r]; contractType := contractType pl;
     senderAddresses := senderAddresses pl;
     receiverAddresses := receiverAddresses pl |}.

Definition setContractType (t : string) (pl : ParsedLogs) : ParsedLogs :=
  {| transfers := transfers pl; deposits := deposits pl;
     otherEvents := otherEvents pl; contractType := t;
     senderAddresses := senderAddresses pl;
     receiverAddresses := receiverAddresses pl |}.

Definition addSender (a : option string) (pl : ParsedLogs) : ParsedLogs :=
  {| transfers := transfers pl; deposits := deposits pl;
     otherEvents := otherEvents pl; contractType := contractType pl;
     senderAddresses := Js.setAdd a (senderAddresses pl);
     receiverAddresses := receiverAddresses pl |}.

Definition addReceiver (a : option string) (pl : ParsedLogs) : ParsedLogs :=
  {| transfers := transfers pl; deposits := deposits pl;
     otherEvents := otherEvents pl; contractType := contractType pl;
     senderAddresses := senderAddresses pl;
     receiverAddresses := Js.setAdd a (receiverAddresses pl) |}.

(** The schemas of the standard path, for the record of decoding
    attempts kept next to the result. *)
Inductive Schema := SchemaERC20 | SchemaERC721.

Section ParseLogs.
Context `{Lib}.

(** The first [try] block of the loop body.  Everything that can throw
    comes before the first update of [parsedLogs], so the block either
    does all its updates and sets [parsed], or does none. *)
Definition tryERC20 (pl : ParsedLogs) (log : RawLog) : ParsedLogs * bool :=
  let block : Result (ParsedLogs * bool) :=
    erc20Interface ← newInterface ERC20_ABI;
    parsedLog ← parseLog erc20Interface log;
    match parsedLog with
    | Some d =>
        if String.eqb (name d) "Transfer" then
          from ← argAt d 0;
          to ← argAt d 1;
          v ← argAt d 2;
          value ← toString v;
          mret (setContractType "ERC20"
                  (addReceiver to
                     (addSender from
                        (pushTransfer
                           {| tr_type := "ERC20 Transfer";
                              tr_from := from; tr_to := to;
                              tr_value := Some value; tr_tokenId := None;
                              tr_logIndex := logIndex log;
                              tr_blockNumber := blockNumber log |} pl))),
                true)
        else if String.eqb (name d) "Deposit" then
          from ← argAt d 0;
          v ← argAt d 1;
          value ← toString v;
          mret (setContractType "ERC20"
                  (addSender from
                     (pushDeposit
                        {| dep_type := "Deposit"; dep_from := from;
                           dep_value := value;
                           dep_logIndex := logIndex log;
                           dep_blockNumber := blockNumber log |} pl)),
                true)
        else mret (pl, false)
    | None => mret (pl, false)
    end in
  match block with
  | Ok r => r
  | Throw _ => (pl, false)
  end.

(** The second [try] block, entered when [parsed] is still false. *)
Definition tryERC721 (pl : ParsedLogs) (log : RawLog) : ParsedLogs * bool :=
  let block : Result (ParsedLogs * bool) :=
    erc721Interface ← newInterface ERC721_ABI;
    parsedLog ← parseLog erc721Interface log;
    match parsedLog with
    | Some d =>
        if String.eqb (name d) "Transfer" then
          from ← argAt d 0;
          to ← argAt d 1;
          v ← argAt d 2;
          tokenId ← toString v;
          mret (setContractType "ERC721"
                  (addReceiver to
                     (addSender from
                        (pushTransfer
                           {| tr_type := "ERC721 Transfer";
                              tr_from := from; tr_to := to;
                              tr_value := None; tr_tokenId := Some tokenId;
                              tr_logIndex := logIndex log;
                              tr_blockNumber := blockNumber log |} pl))),
                true)
        else mret (pl, false)
    | None => mret (pl, false)
    end in
  match block with
  | Ok r => r
  | Throw _ => (pl, false)
  end.

(** [ethers.getAddress('0x' + topic.slice(26))] under its [try]:
    the address, or nothing when the topic is not 66 characters long
    or [getAddress] throws. *)
Definition topicAddress (topic : string) : option string :=
  if (String.length topic =? 66)%nat then
    match getAddress ("0x" +:+ Js.slice 26 topic) with
    | Ok a => Some a
    | Throw _ => None
    end
  else None.

(** [for (let i = ..; i < log.topics.length; i++)], from index [i] on,
    [ts] being the topics from that index. *)
Fixpoint extractAddresses (i : nat) (ts : list string) (pl : ParsedLogs)
  : ParsedLogs :=
  match ts with
  | [] => pl
  | topic :: rest =>
      let pl' :=
        match topicAddress topic with
        | Some a =>
            if (i =? 1)%nat then addSender (Some a) pl
            else if (i =? 2)%nat then addReceiver (Some a) pl
            else pl
        | None => pl
        end in
      extractAddresses (S i) rest pl'
  end.

(** The last block of the loop body, entered when no schema matched. *)
Definition unknownEvent (pl : ParsedLogs) (log : RawLog) : ParsedLogs :=
  let rawEvent :=
    {| raw_type := "Unknown Event"; raw_topics := topics log;
       raw_data := data log; raw_logIndex := logIndex log;
       raw_blockNumber := blockNumber log; raw_address := address log |} in
  pushOther rawEvent (extractAddresses 1 (drop 1 (topics log)) pl).

(** One iteration of [for (const log of logs)], with the schemas it
    handed to [parseLog], in the order of the calls. *)
Definition processLog (pl : ParsedLogs) (log : RawLog)
  : ParsedLogs * list Schema :=
  let '(pl1, parsed) := tryERC20 pl log in
  if parsed then (pl1, [SchemaERC20])
  else
    let '(pl2, parsed) := tryERC721 pl1 log in
    if parsed then (pl2, [SchemaERC20; SchemaERC721])
    else (unknownEvent pl2 log, [SchemaERC20; SchemaERC721]).

Definition step (pl : ParsedLogs) (log : RawLog) : ParsedLogs :=
  fst (processLog pl log).

(** [parseLogs(logs, contractAddress)].  The two sets are kept in
    insertion order, so [Array.from] changes nothing; [contractAddress]
    is not read. *)
Definition parseLogs (logs : list RawLog) (contractAddress : option string)
  : ParsedLogs :=
  foldl step emptyParsedLogs logs.

End ParseLogs.

Record ContractInfo := {
  info_symbol : option string;
  info_name : option string;
  info_decimals : option Z
}.

(** [balances] is an object with at most the sender's key. *)
Record ContractState := {
  balances : list (string * string);
  contractInfo : ContractInfo
}.

Definition emptyContractState : ContractState :=
  {| balances := [];
     contractInfo := {| info_symbol := None; info_name := None;
                        info_decimals := None |} |}.

(** The value a [try { x = await call } catch {}] leaves in [x]. *)
Definition attempt {A} (call : Result A) : option A :=
  match call with
  | Ok a => Some a
  | Throw _ => None
  end.

Section ContractState.
Context `{Provider}.

(** [getContractState(contractAddress, senderAddress)] *)
Definition getContractState (contractAddress : option string)
    (senderAddress : string) : ContractState :=
  match newContract contractAddress ERC20_ABI with
  | Ok erc20Contract =>
      {| balances :=
           if Js.truthyString senderAddress then
             match attempt (balanceOf erc20Contract senderAddress) with
             | Some b => [(senderAddress, b)]
             | None => []
             end
           else [];
         contractInfo :=
           {| info_symbol := attempt (symbol erc20Contract);
              info_name := attempt (tokenName erc20Contract);
              info_decimals := attempt (decimals erc20Contract) |} |}
  | Throw _ => emptyContractState
  end.

End ContractState.

Record Analysis := {
  an_type : string;
  an_success : bool;
  an_hasTransfers : bool;
  an_hasDeposits : bool;
  an_contractType : string;
  an_senderCount : nat;
  an_receiverCount : nat;
  an_totalEvents : nat
}.

Definition setType (t : string) (a : Analysis) : Analysis :=
  {| an_type := t; an_success := an_success a;
     an_hasTransfers := an_hasTransfers a;
     an_hasDeposits := an_hasDeposits a;
     an_contractType := an_contractType a;
     an_senderCount := an_senderCount a;
     an_receiverCount := an_receiverCount a;
     an_totalEvents := an_totalEvents a |}.

(** [receipt.status === 1] *)
Definition statusIsOne (r : Receipt) : bool :=
  match rc_status r with
  | Some s => s =? 1
  | None => false
  end.

(** [analyzeTransactionPattern(transaction, receipt, parsedLogs)] *)
Definition analyzeTransactionPattern (transaction : Transaction)
    (receipt : Receipt) (parsedLogs : ParsedLogs) : Analysis :=
  let analysis :=
    {| an_type := "unknown";
       an_success := statusIsOne receipt;
       an_hasTransfers := (0 <? length (transfers parsedLogs))%nat;
       an_hasDeposits := (0 <? length (deposits parsedLogs))%nat;
       an_contractType := contractType parsedLogs;
       an_senderCount := length (senderAddresses parsedLogs);
       an_receiverCount := length (receiverAddresses parsedLogs);
       an_totalEvents :=
         (length (transfers parsedLogs) + length (deposits parsedLogs)
          + length (otherEvents parsedLogs))%nat |} in
  if (0 <? length (transfers parsedLogs))%nat then
    setType "transfer" analysis
  else if (0 <? length (deposits parsedLogs))%nat then
    setType "deposit" analysis
  else if Js.truthyString (tx_data transaction)
          && negb (String.eqb (tx_data transaction) "0x") then
    setType "contract_call" analysis
  else if 0 <? tx_value transaction then
    setType "eth_transfer" analysis
  else analysis.

(** The [transaction] object of the result.  Amounts stay numbers (the
    source prints them in decimal) and [blockTime] is the millisecond
    count handed to [Date] (the source prints it in ISO format). *)
Record TransactionDetails := {
  td_hash : string;
  td_blockNumber : Z;
  td_blockTime : option Z;
  td_from : string;
  td_to : option string;
  td_value : Z;
  td_gasUsed : Z;
  td_status : string;
  td_gasPrice : Z;
  td_nonce : Z
}.

Record TransactionAnalysis := {
  ta_transaction : TransactionDetails;
  ta_events : ParsedLogs;
  ta_contractState : ContractState;
  ta_analysis : Analysis
}.

Section AnalyzeTransaction.
Context `{Lib} `{Provider}.

(** [analyzeTransaction(txHash, contractAddress)]; its [catch] logs
    and throws the error again. *)
Definition analyzeTransaction (txHash : string)
    (contractAddress : option string) : Result TransactionAnalysis :=
  transaction ← getTransaction txHash;
  match transaction with
  | None => Throw "Transaction not found"
  | Some transaction =>
      receipt ← getTransactionReceipt txHash;
      match receipt with
      | None => Throw "Transaction receipt not found"
      | Some receipt =>
          block ← getBlock (rc_blockNumber receipt);
          let parsedLogs := parseLogs (rc_logs receipt) contractAddress in
          let contractState :=
            getContractState contractAddress (tx_from transaction) in
          mret
            {| ta_transaction :=
                 {| td_hash := txHash;
                    td_blockNumber := rc_blockNumber receipt;
                    td_blockTime :=
                      match block with
                      | Some b => Some (timestamp b * 1000)
                      | None => None
                      end;
                    td_from := tx_from transaction;
                    td_to := tx_to transaction;
                    td_value := tx_value transaction;
                    td_gasUsed := rc_gasUsed receipt;
                    td_status :=
                      if statusIsOne receipt then "success" else "failed";
                    td_gasPrice := tx_gasPrice transaction;
                    td_nonce := tx_nonce transaction |};
               ta_events := parsedLogs;
               ta_contractState := contractState;
               ta_analysis :=
                 analyzeTransactionPattern transaction receipt parsedLogs |}
      end
  end.

End AnalyzeTransaction.

End BlockchainService.

(** ** The Redis server, as the client library presents it *)

Module Redis.

(** Each key holds a value and the time, in seconds, at which it
    expires.  A client that has lost its connection rejects every
    command. *)
Record Client := {
  entries : gmap string (string * Z);
  online : bool
}.

(** [await client.setEx(key, seconds, value)], issued at time [now] *)
Definition setEx (c : Client) (now : Z) (key : string) (seconds : Z)
    (value : string) : Result Client :=
  if online c then
    Ok {| entries := <[key := (value, now + seconds)]> (entries c);
          online := true |}
  else Throw "The client is closed".

(** [await client.get(key)], issued at time [now]: [null] for a key that
    is not there or has expired *)
Definition get (c : Client) (now : Z) (key : string) : Result (option string) :=
  if online c then
    Ok match entries c !! key with
       | Some (value, expiry) => if now <? expiry then Some value else None
       | None => None
       end
  else Throw "The client is closed".

End Redis.

(** ** utils/abiFetcher.js *)

Module ABIFetcher.
Import Ethers.

(** [JSON.stringify], [JSON.parse] and the conversion of a value that is
    not a string to a string, which [JSON.parse] applies to its
    argument. *)
Class JSON := {
  stringify : Js.Json → string;
  parse : string → Result Js.Json;
  textOf : option Js.Json → string
}.

(** The two explorer services behind [axios.get]: a call returns
    [response.data], or throws on a timeout, a transport error or an
    error status. *)
Class Explorers := {
  monadScanGetAbi : string → Result (option Js.Json);
  monadExplorerGetAbi : string → Result (option Js.Json)
}.

Inductive Source := MonadScan | MonadExplorer.

(** [v === s] for a string literal [s] *)
Definition isString (v : option Js.Json) (s : string) : bool :=
  match v with
  | Some (Js.JStr t) => String.eqb t s
  | _ => false
  end.

Section Fetch.
Context `{JSON} `{Explorers}.

(** [JSON.parse(v)] *)
Definition parseValue (v : option Js.Json) : Result Js.Json :=
  match v with
  | Some (Js.JStr s) => parse s
  | _ => parse (textOf v)
  end.

(** [fetchFromMonadScan(contractAddress)]; [null] is [JNull]. *)
Definition fetchFromMonadScan (contractAddress : string) : Js.Json :=
  let block : Result Js.Json :=
    data ← monadScanGetAbi contractAddress;
    status ← Js.prop data "status";
    if isString status "1" then
      result ← Js.prop data "result";
      if negb (isString result "Contract source code not verified") then
        parseValue result
      else mret Js.JNull
    else mret Js.JNull in
  match block with
  | Ok abi => abi
  | Throw _ => Js.JNull
  end.

(** [fetchFromMonadExplorer(contractAddress)] *)
Definition fetchFromMonadExplorer (contractAddress : string) : Js.Json :=
  let block : Result Js.Json :=
    data ← monadExplorerGetAbi contractAddress;
    if Js.truthyU data then
      abi ← Js.prop data "abi";
      match abi with
      | Some abi => if Js.truthy abi then mret abi else mret Js.JNull
      | None => mret Js.JNull
      end
    else mret Js.JNull in
  match block with
  | Ok abi => abi
  | Throw _ => Js.JNull
  end.

Definition cacheKey (contractAddress : string) : string :=
  "abi:" +:+ Js.toLowerCase contractAddress.

(** [cacheABI(contractAddress, abi)] at time [now]: the client
    afterwards. *)
Definition cacheABI (redisClient : option Redis.Client) (now : Z)
    (contractAddress : string) (abi : Js.Json) : option Redis.Client :=
  match redisClient with
  | None => None
  | Some c =>
      match Redis.setEx c now (cacheKey contractAddress) 86400
              (stringify abi) with
      | Ok c' => Some c'
      | Throw _ => Some c
      end
  end.

(** [getCachedABI(contractAddress)] at time [now] *)
Definition getCachedABI (redisClient : option Redis.Client) (now : Z)
    (contractAddress : string) : Js.Json :=
  match redisClient with
  | None => Js.JNull
  | Some c =>
      let block : Result Js.Json :=
        cached ← Redis.get c now (cacheKey contractAddress);
        match cached with
        | Some s => if Js.truthyString s then parse s else mret Js.JNull
        | None => mret Js.JNull
        end in
      match block with
      | Ok abi => abi
      | Throw _ => Js.JNull
      end
  end.

(** What one call of [fetchABI] leaves behind: the value returned, the
    client, and the explorers it called, in the order of the calls. *)
Record Fetched := {
  fetched_abi : Js.Json;
  fetched_client : option Redis.Client;
  fetched_queried : list Source
}.

(** [fetchABI(contractAddress)] at time [now] *)
Definition fetchABI (redisClient : option Redis.Client) (now : Z)
    (contractAddress : string) : Fetched :=
  let cachedABI := getCachedABI redisClient now contractAddress in
  if Js.truthy cachedABI then
    {| fetched_abi := cachedABI; fetched_client := redisClient;
       fetched_queried := [] |}
  else
    let abi := fetchFromMonadScan contractAddress in
    let '(abi, queried) :=
      if negb (Js.truthy abi) then
        (fetchFromMonadExplorer contractAddress, [MonadScan; MonadExplorer])
      else (abi, [MonadScan]) in
    {| fetched_abi := abi;
       fetched_client :=
         if Js.truthy abi then cacheABI redisClient now contractAddress abi
         else redisClient;
       fetched_queried := queried |}.

End Fetch.

(** The entries of [failures], [partialTransfers] and [transfers]; a
    field is [args[i]?.toString()], where the guard is for a value that is
    [undefined] and not for an index past the end, which throws. *)
Record FailureRecord := {
  fail_type : string;
  fail_from : option string;
  fail_to : option string;
  fail_amount : option string;
  fail_reason : option string;
  fail_logIndex : Z
}.

Record PartialTransferRecord := {
  part_type : string;
  part_from : option string;
  part_to : option string;
  part_requested : option string;
  part_sent : option string;
  part_logIndex : Z
}.

Record TransferRecord := {
  tr_type : string;
  tr_from : option string;
  tr_to : option string;
  tr_amount : option string;
  tr_logIndex : Z
}.

Record EventData := {
  ev_name : string;
  ev_args : list string;
  ev_logIndex : Z;
  ev_error : option string
}.

(** [contractType] is the constant ['Custom'] and [contractInfo] the
    empty object; both are never written again. *)
Record ParsedLogs := {
  transfers : list TransferRecord;
  failures : list FailureRecord;
  partialTransfers : list PartialTransferRecord;
  contractType : string;
  parsedEvents : list EventData
}.

Definition emptyParsedLogs : ParsedLogs :=
  {| transfers := []; failures := []; partialTransfers := [];
     contractType := "Custom"; parsedEvents := [] |}.

Definition pushTransfer (r : TransferRecord) (pl : ParsedLogs) : ParsedLogs :=
  {| transfers := transfers pl ++ [r]; failures := failures pl;
     partialTransfers := partialTransfers pl;
     contractType := contractType pl; parsedEvents := parsedEvents pl |}.

Definition pushFailure (r : FailureRecord) (pl : ParsedLogs) : ParsedLogs :=
  {| transfers := transfers pl; failures := failures pl ++ [r];
     partialTransfers := partialTransfers pl;
     contractType := contractType pl; parsedEvents := parsedEvents pl |}.

Definition pushPartial (r : PartialTransferRecord) (pl : ParsedLogs)
  : ParsedLogs :=
  {| transfers := transfers pl; failures := failures pl;
     partialTransfers := partialTransfers pl ++ [r];
     contractType := contractType pl; parsedEvents := parsedEvents pl |}.

Definition pushEvent (e : EventData) (pl : ParsedLogs) : ParsedLogs :=
  {| transfers := transfers pl; failures := failures pl;
     partialTransfers := partialTransfers pl;
     contractType := contractType pl;
     parsedEvents := parsedEvents pl ++ [e] |}.

(** [args.map(arg => arg.toString())] *)
Fixpoint mapToString (l : list Arg) : Result (list string) :=
  match l with
  | [] => Ok []
  | ArgValue s :: rest => shown ← mapToString rest; mret (s :: shown)
  | ArgError m :: _ => Throw m
  end.

Section ParseLogsWithABI.
Context `{Lib}.

(** The categorisation by name pattern, inside the [try] of the loop
    body: the fields of a record are read before it is pushed, and an
    event with fewer arguments than the record reads makes the read
    throw. *)
Definition categorize (d : LogDescription) (log : RawLog) (pl : ParsedLogs)
  : Result ParsedLogs :=
  let lower := Js.toLowerCase (name d) in
  if Js.includes lower "transfer" then
    if Js.includes lower "failed" then
      a0 ← argAt d 0; a1 ← argAt d 1; a2 ← argAt d 2; a3 ← argAt d 3;
      mret (pushFailure
              {| fail_type := name d; fail_from := a0; fail_to := a1;
                 fail_amount := a2; fail_reason := a3;
                 fail_logIndex := logIndex log |} pl)
    else if Js.includes lower "partial" then
      a0 ← argAt d 0; a1 ← argAt d 1; a2 ← argAt d 2; a3 ← argAt d 3;
      mret (pushPartial
              {| part_type := name d; part_from := a0; part_to := a1;
                 part_requested := a2; part_sent := a3;
                 part_logIndex := logIndex log |} pl)
    else
      a0 ← argAt d 0; a1 ← argAt d 1; a2 ← argAt d 2;
      mret (pushTransfer
              {| tr_type := name d; tr_from := a0; tr_to := a1;
                 tr_amount := a2; tr_logIndex := logIndex log |} pl)
  else mret pl.

(** One iteration of [for (const log of logs)]. *)
Definition step (contractInterface : Interface) (pl : ParsedLogs)
    (log : RawLog) : ParsedLogs :=
  let block : Result ParsedLogs :=
    parsedLog ← parseLog contractInterface log;
    match parsedLog with
    | Some d =>
        shown ← mapToString (args d);
        let eventData :=
          {| ev_name := name d; ev_args := shown;
             ev_logIndex := logIndex log; ev_error := None |} in
        pl' ← categorize d log pl;
        mret (pushEvent eventData pl')
    | None => mret pl
    end in
  match block with
  | Ok pl' => pl'
  | Throw message =>
      pushEvent {| ev_name := "Unknown"; ev_args := [];
                   ev_logIndex := logIndex log;
                   ev_error := Some message |} pl
  end.

(** [parseLogsWithABI(logs, contractAddress, abi)] *)
Definition parseLogsWithABI (logs : list RawLog) (contractAddress : string)
    (abi : Js.Json) : ParsedLogs :=
  match newInterface abi with
  | Ok contractInterface => foldl (step contractInterface) emptyParsedLogs logs
  | Throw _ => emptyParsedLogs
  end.

End ParseLogsWithABI.

End ABIFetcher.

(** ** services/aiService.js *)

Module AIService.

Record Message := { content : option string }.
Record Choice := { message : option Message }.
Record ResponseData := { choices : option (list Choice) }.

(** The configured key and the chat-completion endpoint.  The prompt is
    a text made of the five arguments of [analyzeDispute], so the reply
    is given as a function of them; a call returns [response.data], or
    throws on a timeout, a transport error or an error status (and when
    the prompt cannot be built). *)
Class Endpoint := {
  apiKey : option string;
  post : string → option string → string → BlockchainService.ParsedLogs →
         BlockchainService.TransactionDetails → Result (option ResponseData)
}.

Section AnalyzeDispute.
Context `{Endpoint}.

(** [analyzeDispute(txHash, contractAddress, disputeDescription, logs,
    transactionDetails)] *)
Definition analyzeDispute (txHash : string) (contractAddress : option string)
    (disputeDescription : string) (logs : BlockchainService.ParsedLogs)
    (transactionDetails : BlockchainService.TransactionDetails)
  : Result (option string) :=
  let block : Result (option string) :=
    if negb (Js.truthyOpt apiKey) then Throw "AI API key not configured"
    else
      data ← post txHash contractAddress disputeDescription logs
               transactionDetails;
      match data with
      | Some {| choices := Some (first :: _) |} =>
          match message first with
          | Some m => mret (content m)
          | None =>
              Throw "Cannot read properties of undefined (reading 'content')"
          end
      | _ => Throw "Invalid response from AI service"
      end in
  match block with
  | Ok aiResponse => Ok aiResponse
  | Throw _ => Throw "AI service temporarily unavailable"
  end.

End AnalyzeDispute.

End AIService.

(** ** controllers/disputeController.js *)

Module DisputeController.
Import Ethers.

(** [req.body] *)
Record Body := {
  txHash : option string;
  contractAddress : option string;
  disputeDescription : option string
}.

Record Data := {
  d_txHash : string;
  d_contractAddress : option string;
  d_disputeDescription : option string;
  d_aiAnalysis : option string;
  d_transaction : BlockchainService.TransactionDetails;
  d_events : BlockchainService.ParsedLogs;
  d_contractState : BlockchainService.ContractState;
  d_analysis : BlockchainService.Analysis
}.

(** The JSON body sent: [{success: false, error}] or
    [{success: true, data}]. *)
Inductive Payload :=
| Failure (error : string)
| Success (data : Data).

Record Response := { status : Z; payload : Payload }.

Definition success (r : Response) : bool :=
  match payload r with
  | Success _ => true
  | Failure _ => false
  end.

(** [res.json(body)] with the status set before: the response sent.
    [JSON.stringify] throws on a [BigInt], and the only one a body can
    hold is [contractState.contractInfo.decimals]. *)
Definition json (r : Response) : Result Response :=
  match payload r with
  | Success data =>
      match BlockchainService.info_decimals
              (BlockchainService.contractInfo (d_contractState data)) with
      | Some _ => Throw "Do not know how to serialize a BigInt"
      | None => Ok r
      end
  | Failure _ => Ok r
  end.

Section AnalyzeTransaction.
Context `{Lib} `{Provider} `{AIService.Endpoint}.

(** The body of the outer [try], from the call of the service on. *)
Definition analyzeAndRespond (txHash : string)
    (contractAddress disputeDescription : option string) : Result Response :=
  analysis ← BlockchainService.analyzeTransaction txHash contractAddress;
  aiAnalysis ←
    match disputeDescription with
    | Some description =>
        if Js.truthyString description then
          AIService.analyzeDispute txHash contractAddress description
            (BlockchainService.ta_events analysis)
            (BlockchainService.ta_transaction analysis)
        else mret None
    | None => mret None
    end;
  json {| status := 200;
          payload :=
            Success
              {| d_txHash := txHash;
                 d_contractAddress := contractAddress;
                 d_disputeDescription :=
                   if Js.truthyOpt disputeDescription
                   then disputeDescription else None;
                 d_aiAnalysis := aiAnalysis;
                 d_transaction := BlockchainService.ta_transaction analysis;
                 d_events := BlockchainService.ta_events analysis;
                 d_contractState :=
                   BlockchainService.ta_contractState analysis;
                 d_analysis := BlockchainService.ta_analysis analysis |} |}.

(** The outer [catch]. *)
Definition handleError (message : string) : Response :=
  if Js.includes message "Transaction not found" then
    {| status := 404; payload := Failure "Transaction not found" |}
  else if Js.includes message "AI service" then
    {| status := 503; payload := Failure message |}
  else {| status := 500; payload := Failure "Internal server error" |}.

(** [analyzeTransaction(req, res)]: the response sent. *)
Definition analyzeTransaction (body : Body) : Response :=
  match txHash body with
  | None =>
      {| status := 400; payload := Failure "Transaction hash is required" |}
  | Some hash =>
      if negb (Js.truthyString hash) then
        {| status := 400;
           payload := Failure "Transaction hash is required" |}
      else
        let respond contractAddress :=
          match analyzeAndRespond hash contractAddress
                  (disputeDescription body) with
          | Ok response => response
          | Throw message => handleError message
          end in
        if Js.truthyOpt (contractAddress body) then
          respond (contractAddress body)
        else
          match getTransaction hash with
          | Ok (Some transaction) => respond (tx_to transaction)
          | Ok None =>
              {| status := 404; payload := Failure "Transaction not found" |}
          | Throw _ =>
              {| status := 500;
                 payload :=
                   Failure "Failed to fetch contract address from transaction" |}
          end
  end.

End AnalyzeTransaction.

End DisputeController.

(** * Views of the code used in the statements *)

(** ** The standard classifier *)

Module Classifier.
Import Ethers BlockchainService.

(** What the first [try] block read from the log when it ran to its
    end. *)
Inductive Erc20Match :=
| Erc20Transfer (from to : option string) (value : string)
| Erc20Deposit (from : option string) (value : string).

(** What the second [try] block read from the log when it ran to its
    end. *)
Inductive Erc721Match :=
| Erc721Transfer (from to : option string) (tokenId : string).

Inductive Bucket := Transfers | Deposits | OtherEvents.

(** The updates the first [try] block makes for what it read. *)
Definition recordERC20 (m : Erc20Match) (log : RawLog) (pl : ParsedLogs)
  : ParsedLogs :=
  match m with
  | Erc20Transfer from to value =>
      setContractType "ERC20"
        (addReceiver to
           (addSender from
              (pushTransfer
                 {| tr_type := "ERC20 Transfer"; tr_from := from;
                    tr_to := to; tr_value := Some value;
                    tr_tokenId := None; tr_logIndex := logIndex log;
                    tr_blockNumber := blockNumber log |} pl)))
  | Erc20Deposit from value =>
      setContractType "ERC20"
        (addSender from
           (pushDeposit
              {| dep_type := "Deposit"; dep_from := from;
                 dep_value := value; dep_logIndex := logIndex log;
                 dep_blockNumber := blockNumber log |} pl))
  end.

(** The updates the second [try] block makes for what it read. *)
Definition recordERC721 (m : Erc721Match) (log : RawLog) (pl : ParsedLogs)
  : ParsedLogs :=
  match m with
  | Erc721Transfer from to tokenId =>
      setContractType "ERC721"
        (addReceiver to
           (addSender from
              (pushTransfer
                 {| tr_type := "ERC721 Transfer"; tr_from := from;
                    tr_to := to; tr_value := None;
                    tr_tokenId := Some tokenId;
                    tr_logIndex := logIndex log;
                    tr_blockNumber := blockNumber log |} pl)))
  end.

Section Views.
Context `{Lib}.

Definition decodeERC20 (log : RawLog) : option Erc20Match :=
  match (iface ← newInterface ERC20_ABI; parseLog iface log) with
  | Ok (Some d) =>
      if String.eqb (name d) "Transfer" then
        match (from ← argAt d 0; to ← argAt d 1; v ← argAt d 2;
               value ← toString v; mret (Erc20Transfer from to value)) with
        | Ok m => Some m
        | Throw _ => None
        end
      else if String.eqb (name d) "Deposit" then
        match (from ← argAt d 0; v ← argAt d 1; value ← toString v;
               mret (Erc20Deposit from value)) with
        | Ok m => Some m
        | Throw _ => None
        end
      else None
  | _ => None
  end.

Definition decodeERC721 (log : RawLog) : option Erc721Match :=
  match (iface ← newInterface ERC721_ABI; parseLog iface log) with
  | Ok (Some d) =>
      if String.eqb (name d) "Transfer" then
        match (from ← argAt d 0; to ← argAt d 1; v ← argAt d 2;
               tokenId ← toString v; mret (Erc721Transfer from to tokenId)) with
        | Ok m => Some m
        | Throw _ => None
        end
      else None
  | _ => None
  end.

(** The bucket a log goes to. *)
Definition bucketOf (log : RawLog) : Bucket :=
  match decodeERC20 log with
  | Some (Erc20Transfer _ _ _) => Transfers
  | Some (Erc20Deposit _ _) => Deposits
  | None =>
      match decodeERC721 log with
      | Some _ => Transfers
      | None => OtherEvents
      end
  end.

(** The contract type a log writes, if it writes one. *)
Definition typeWrittenBy (log : RawLog) : option string :=
  match decodeERC20 log with
  | Some _ => Some "ERC20"
  | None =>
      match decodeERC721 log with
      | Some _ => Some "ERC721"
      | None => None
      end
  end.

(** No schema matches the log. *)
Definition unmatched (log : RawLog) : bool :=
  match decodeERC20 log, decodeERC721 log with
  | None, None => true
  | _, _ => false
  end.

End Views.

End Classifier.

Module StandardCoverage.
Import Ethers BlockchainService Classifier.

(** A log is placed in bucket [b]: that bucket gains one record, which
    carries the log's index, and the others are as before. *)
Definition placed (b : Bucket) (log : RawLog) (pl pl' : ParsedLogs) : Prop :=
  match b with
  | Transfers =>
      (∃ r, transfers pl' = transfers pl ++ [r] ∧ tr_logIndex r = logIndex log)
      ∧ deposits pl' = deposits pl
      ∧ otherEvents pl' = otherEvents pl
  | Deposits =>
      transfers pl' = transfers pl
      ∧ (∃ r, deposits pl' = deposits pl ++ [r]
              ∧ dep_logIndex r = logIndex log)
      ∧ otherEvents pl' = otherEvents pl
  | OtherEvents =>
      transfers pl' = transfers pl
      ∧ deposits pl' = deposits pl
      ∧ (∃ r, otherEvents pl' = otherEvents pl ++ [r]
              ∧ raw_logIndex r = logIndex log)
  end.

Definition categorySize (pl : ParsedLogs) : nat :=
  (length (transfers pl) + length (deposits pl)
   + length (otherEvents pl))%nat.

End StandardCoverage.

(** ** The custom-ABI classifier *)

Module AbiClassifier.
Import Ethers ABIFetcher.

Inductive Bucket := Transfers | Failures | PartialTransfers.

(** The bucket chosen for an event name, if any. *)
Definition bucketOfName (name : string) : option Bucket :=
  let lower := Js.toLowerCase name in
  if Js.includes lower "transfer" then
    Some (if Js.includes lower "failed" then Failures
          else if Js.includes lower "partial" then PartialTransfers
          else Transfers)
  else None.

(** The number of arguments the record of a bucket reads. *)
Definition arity (b : Bucket) : nat :=
  match b with
  | Failures | PartialTransfers => 4
  | Transfers => 3
  end.

(** The arguments [shown] of an event of that name are all the ones its
    record reads. *)
Definition readable (name : string) (shown : list string) : bool :=
  match bucketOfName name with
  | Some b => (arity b <=? length shown)%nat
  | None => true
  end.

(** A log is placed in bucket [b], or in none: that bucket gains one
    record, which carries the log's index, and the others are as
    before. *)
Definition placed (b : option Bucket) (log : RawLog) (pl pl' : ParsedLogs)
  : Prop :=
  match b with
  | Some Transfers =>
      (∃ r, transfers pl' = transfers pl ++ [r] ∧ tr_logIndex r = logIndex log)
      ∧ failures pl' = failures pl
      ∧ partialTransfers pl' = partialTransfers pl
  | Some Failures =>
      transfers pl' = transfers pl
      ∧ (∃ r, failures pl' = failures pl ++ [r]
              ∧ fail_logIndex r = logIndex log)
      ∧ partialTransfers pl' = partialTransfers pl
  | Some PartialTransfers =>
      transfers pl' = transfers pl
      ∧ failures pl' = failures pl
      ∧ (∃ r, partialTransfers pl' = partialTransfers pl ++ [r]
              ∧ part_logIndex r = logIndex log)
  | None =>
      transfers pl' = transfers pl
      ∧ failures pl' = failures pl
      ∧ partialTransfers pl' = partialTransfers pl
  end.

Definition categorySize (pl : ParsedLogs) : nat :=
  (length (transfers pl) + length (failures pl)
   + length (partialTransfers pl))%nat.

(** The records the three branches build from a decoded event, its
    arguments being [shown]. *)
Definition classified (name : string) (shown : list string) (logIndex : Z)
    (pl : ParsedLogs) : ParsedLogs :=
  match bucketOfName name with
  | Some Failures =>
      pushFailure
        {| fail_type := name; fail_from := shown !! 0%nat;
           fail_to := shown !! 1%nat; fail_amount := shown !! 2%nat;
           fail_reason := shown !! 3%nat; fail_logIndex := logIndex |} pl
  | Some PartialTransfers =>
      pushPartial
        {| part_type := name; part_from := shown !! 0%nat;
           part_to := shown !! 1%nat; part_requested := shown !! 2%nat;
           part_sent := shown !! 3%nat; part_logIndex := logIndex |} pl
  | Some Transfers =>
      pushTransfer
        {| tr_type := name; tr_from := shown !! 0%nat;
           tr_to := shown !! 1%nat; tr_amount := shown !! 2%nat;
           tr_logIndex := logIndex |} pl
  | None => pl
  end.

Section Views.
Context `{Lib}.

(** The event of a log and its arguments, when [parseLog] finds the
    event and every argument can be read. *)
Definition decoded (iface : Interface) (log : RawLog)
  : option (LogDescription * list string) :=
  match parseLog iface log with
  | Ok (Some d) =>
      match mapToString (args d) with
      | Ok shown => Some (d, shown)
      | Throw _ => None
      end
  | _ => None
  end.

Definition bucketOf (iface : Interface) (log : RawLog) : option Bucket :=
  match decoded iface log with
  | Some (d, _) => bucketOfName (name d)
  | None => None
  end.

(** The bucket a log is recorded in: the one of its name, when the event
    has the arguments the record reads. *)
Definition recordedIn (iface : Interface) (log : RawLog) : option Bucket :=
  match decoded iface log with
  | Some (d, shown) =>
      if readable (name d) shown then bucketOfName (name d) else None
  | None => None
  end.

End Views.

End AbiClassifier.

(** ** The transaction pattern analyzer *)

Module PatternSpec.
Import Ethers BlockchainService.

(** The first rule whose condition holds gives the result. *)
Fixpoint firstMatch {A} (rules : list (bool * A)) (otherwise : A) : A :=
  match rules with
  | [] => otherwise
  | (condition, result) :: rest =>
      if condition then result else firstMatch rest otherwise
  end.

(** The decision order of the summary type, rule by rule. *)
Definition summaryType (transaction : Transaction) (parsedLogs : ParsedLogs)
  : string :=
  firstMatch
    [ (bool_decide (transfers parsedLogs ≠ []), "transfer");
      (bool_decide (deposits parsedLogs ≠ []), "deposit");
      (bool_decide (tx_data transaction ≠ ""
                    ∧ tx_data transaction ≠ "0x"), "contract_call");
      (bool_decide (0 < tx_value transaction), "eth_transfer") ]
    "unknown".

End PatternSpec.

(** ** The analyze request *)

Module Requests.
Import Ethers DisputeController.

(** The contract address the controller works with, given the
    transaction it looked up. *)
Definition effectiveAddress (body : Body) (transaction : Transaction)
  : option string :=
  if Js.truthyOpt (contractAddress body) then contractAddress body
  else tx_to transaction.

(** The dispute description, when there is one to adjudicate. *)
Definition disputeText (body : Body) : option string :=
  match disputeDescription body with
  | Some description =>
      if Js.truthyString description then Some description else None
  | None => None
  end.

(** [response.data.choices[0]], when the three tests of the service let
    it through. *)
Definition firstChoice (data : option AIService.ResponseData)
  : option AIService.Choice :=
  match data with
  | Some {| AIService.choices := Some (first :: _) |} => Some first
  | _ => None
  end.

Definition unavailable : string := "AI service temporarily unavailable".

Section Views.
Context `{Lib} `{Provider} `{AIService.Endpoint}.

(** What the service returns once the three lookups have answered. *)
Definition analysisOf (hash : string) (contractAddress : option string)
    (transaction : Transaction) (receipt : Receipt) (block : option Block)
  : BlockchainService.TransactionAnalysis :=
  let parsedLogs :=
    BlockchainService.parseLogs (rc_logs receipt) contractAddress in
  {| BlockchainService.ta_transaction :=
       {| BlockchainService.td_hash := hash;
          BlockchainService.td_blockNumber := rc_blockNumber receipt;
          BlockchainService.td_blockTime :=
            match block with
            | Some b => Some (timestamp b * 1000)
            | None => None
            end;
          BlockchainService.td_from := tx_from transaction;
          BlockchainService.td_to := tx_to transaction;
          BlockchainService.td_value := tx_value transaction;
          BlockchainService.td_gasUsed := rc_gasUsed receipt;
          BlockchainService.td_status :=
            if BlockchainService.statusIsOne receipt
            then "success" else "failed";
          BlockchainService.td_gasPrice := tx_gasPrice transaction;
          BlockchainService.td_nonce := tx_nonce transaction |};
     BlockchainService.ta_events := parsedLogs;
     BlockchainService.ta_contractState :=
       BlockchainService.getContractState contractAddress
         (tx_from transaction);
     BlockchainService.ta_analysis :=
       BlockchainService.analyzeTransactionPattern transaction receipt
         parsedLogs |}.

(** The success response for an analysis and an adjudication. *)
Definition okResponse (body : Body) (hash : string)
    (contractAddress : option string)
    (analysis : BlockchainService.TransactionAnalysis)
    (aiAnalysis : option string) : Response :=
  {| status := 200;
     payload :=
       Success
         {| d_txHash := hash;
            d_contractAddress := contractAddress;
            d_disputeDescription := disputeText body;
            d_aiAnalysis := aiAnalysis;
            d_transaction := BlockchainService.ta_transaction analysis;
            d_events := BlockchainService.ta_events analysis;
            d_contractState :=
              BlockchainService.ta_contractState analysis;
            d_analysis := BlockchainService.ta_analysis analysis |} |}.

(** What the client receives when the controller hands a response to
    [res.json]: that response, or the answer of the [catch] when the body
    cannot be printed. *)
Definition sent (r : Response) : Response :=
  match json r with
  | Ok response => response
  | Throw message => handleError message
  end.

(** The adjudication of the request's dispute over its analysis. *)
Definition adjudicate (hash : string) (contractAddress : option string)
    (description : string)
    (analysis : BlockchainService.TransactionAnalysis)
  : Result (option string) :=
  AIService.analyzeDispute hash contractAddress description
    (BlockchainService.ta_events analysis)
    (BlockchainService.ta_transaction analysis).

(** The request has a transaction hash; the transaction, the receipt
    and the block were looked up without an error of the provider,
    and the transaction and the receipt exist. *)
Definition resolved (body : Body) (hash : string)
    (transaction : Transaction) (receipt : Receipt) (block : option Block)
  : Prop :=
  txHash body = Some hash
  ∧ Js.truthyString hash = true
  ∧ getTransaction hash = Ok (Some transaction)
  ∧ getTransactionReceipt hash = Ok (Some receipt)
  ∧ getBlock (rc_blockNumber receipt) = Ok block.



End Views.

End Requests.

(** * A reference implementation of the libraries

    Used for the examples only; no theorem depends on it.  The decoder
    knows the events listed in [knownEvents], whose parameters are
    addresses and unsigned integers, the indexed ones first.  Addresses
    are returned as they are written in the topic, which is what ethers
    returns for addresses without letters (the checksum only changes the
    case of letters); [getAddress] accepts those addresses and no
    other. *)

Module Reference.
Import Ethers.

Inductive ParamType := TAddress | TUint256.

Record Fragment := {
  frag_name : string;
  frag_topic : string;
  frag_indexed : list ParamType;
  frag_data : list ParamType
}.

(** The items of an ABI in the human-readable format, with the
    Keccak-256 hash of their signature. *)
Definition knownEvents : list (string * Fragment) := [
  ("event Transfer(address indexed from, address indexed to, uint256 value)",
   {| frag_name := "Transfer";
      frag_topic := "0xddf252ad1be2c89b69c2b068fc378daa952ba7f163c4a11628f55a4df523b3ef";
      frag_indexed := [TAddress; TAddress]; frag_data := [TUint256] |});
  ("event Deposit(address indexed from, uint256 value)",
   {| frag_name := "Deposit";
      frag_topic := "0xe1fffcc4923d04b559f4d29a8bfc6cda04eb5b0d3c460751c2402c5c5cc9109c";
      frag_indexed := [TAddress]; frag_data := [TUint256] |});
  ("event Transfer(address indexed from, address indexed to, uint256 indexed tokenId)",
   {| frag_name := "Transfer";
      frag_topic := "0xddf252ad1be2c89b69c2b068fc378daa952ba7f163c4a11628f55a4df523b3ef";
      frag_indexed := [TAddress; TAddress; TUint256]; frag_data := [] |});
  ("event Approval(address indexed owner, address indexed spender, uint256 value)",
   {| frag_name := "Approval";
      frag_topic := "0x8c5be1e5ebec7d5bd14f71427d1e84f3dd0314c0f7b2291e5b200ac8c7c3b925";
      frag_indexed := [TAddress; TAddress]; frag_data := [TUint256] |});
  ("event TransferFailed(address indexed from, address indexed to, uint256 amount, uint256 reason)",
   {| frag_name := "TransferFailed";
      frag_topic := "0x81f20f86f1d9983d0bd45e6f1450ed8b646b846b3ac8bf1ef63ab08be21028d6";
      frag_indexed := [TAddress; TAddress]; frag_data := [TUint256; TUint256] |});
  ("event OwnershipTransferred(address indexed previousOwner, address indexed newOwner)",
   {| frag_name := "OwnershipTransferred";
      frag_topic := "0x8be0079c531659141344cd1fd0a4f28419497f9722a3daafe3b4186f6b6457e0";
      frag_indexed := [TAddress; TAddress]; frag_data := [] |})
].

Fixpoint lookupItem (item : string) (table : list (string * Fragment))
  : option Fragment :=
  match table with
  | [] => None
  | (text, f) :: rest =>
      if String.eqb item text then Some f else lookupItem item rest
  end.

Definition fragmentOf (item : Js.Json) : option Fragment :=
  match item with
  | Js.JStr s => lookupItem s knownEvents
  | _ => None
  end.

Definition newInterface (abi : Js.Json) : Result (list Fragment) :=
  match abi with
  | Js.JArr items => Ok (omap fragmentOf items)
  | _ => Throw "invalid ABI"
  end.

(** A 32-byte word, written as 64 hexadecimal digits, as a value of the
    given type. *)
Definition decodeWord (t : ParamType) (word : string) : string :=
  match t with
  | TAddress => "0x" +:+ Js.slice 24 word
  | TUint256 =>
      DecimalString.NilZero.string_of_uint
        (N.to_uint (HexString.to_N ("0x" +:+ word)))
  end.

Fixpoint decodeWords (ts : list ParamType) (words : list string)
  : Result (list Arg) :=
  match ts, words with
  | [], _ => Ok []
  | _ :: _, [] => Throw "data out-of-bounds"
  | t :: ts', w :: words' =>
      rest ← decodeWords ts' words';
      mret (ArgValue (decodeWord t w) :: rest)
  end.

(** The 64-digit words of a hexadecimal string without its prefix; an
    incomplete last word is dropped. *)
Fixpoint wordsOf (fuel : nat) (hex : string) : list string :=
  match fuel with
  | O => []
  | S fuel' =>
      if (String.length hex <? 64)%nat then []
      else String.substring 0 64 hex :: wordsOf fuel' (Js.slice 64 hex)
  end.

Definition parseLog (fragments : list Fragment) (log : RawLog)
  : Result (option LogDescription) :=
  match topics log with
  | [] => Ok None
  | topic0 :: indexed =>
      match
        find (λ f, String.eqb (frag_topic f) (Js.toLowerCase topic0)) fragments
      with
      | None => Ok None
      | Some f =>
          fromTopics ← decodeWords (frag_indexed f) (map (Js.slice 2) indexed);
          fromData ←
            decodeWords (frag_data f)
              (wordsOf (String.length (data log)) (Js.slice 2 (data log)));
          mret (Some {| name := frag_name f; args := fromTopics ++ fromData |})
      end
  end.

Definition isDigit (c : ascii) : bool :=
  let n := nat_of_ascii c in ((48 <=? n) && (n <=? 57))%nat.

Fixpoint allDigits (s : string) : bool :=
  match s with
  | EmptyString => true
  | String c t => isDigit c && allDigits t
  end.

Definition getAddress (s : string) : Result string :=
  if String.prefix "0x" s && (String.length s =? 42)%nat
     && allDigits (Js.slice 2 s)
  then Ok s
  else Throw "invalid address".

Definition lib : Lib :=
  {| Ethers.Interface := list Fragment;
     Ethers.newInterface := newInterface;
     Ethers.parseLog := parseLog;
     Ethers.getAddress := getAddress |}.

(** A JSON codec for the two documents of the examples. *)
Definition json : ABIFetcher.JSON :=
  {| ABIFetcher.stringify v :=
       match v with
       | Js.JArr [] => "[]"
       | _ => "null"
       end;
     ABIFetcher.parse s :=
       if String.eqb s "[]" then Ok (Js.JArr [])
       else if String.eqb s "null" then Ok Js.JNull
       else Throw "Unexpected token";
     ABIFetcher.textOf v := "undefined" |}.

End Reference.

(** * Examples *)

Module Examples.
Import Ethers.

Definition addrA : string := "0x1111111111111111111111111111111111111111".
Definition addrB : string := "0x2222222222222222222222222222222222222222".

(** An address as a topic: 12 zero bytes, then the 20 bytes of the
    address. *)
Definition pad (a : string) : string :=
  "0x000000000000000000000000" +:+ Js.slice 2 a.

(** The integer 5 as a 32-byte word. *)
Definition five : string :=
  "0000000000000000000000000000000000000000000000000000000000000005".

Definition transferTopic : string :=
  "0xddf252ad1be2c89b69c2b068fc378daa952ba7f163c4a11628f55a4df523b3ef".
Definition transferFailedTopic : string :=
  "0x81f20f86f1d9983d0bd45e6f1450ed8b646b846b3ac8bf1ef63ab08be21028d6".
(** The hash of [Paused(address)], an event of neither standard ABI. *)
Definition pausedTopic : string :=
  "0x62e78cea01bee320cd4e420270b5ea74000d11b0c9f74754ebdbfc544b05a258".

(** An ERC-20 transfer of 5 from [addrA] to [addrB]. *)
Definition erc20Log : RawLog :=
  {| address := addrB; topics := [transferTopic; pad addrA; pad addrB];
     data := "0x" +:+ five; logIndex := 0; blockNumber := 100 |}.

(** An ERC-721 transfer of token 5 from [addrA] to [addrB]. *)
Definition erc721Log : RawLog :=
  {| address := addrB;
     topics := [transferTopic; pad addrA; pad addrB; "0x" +:+ five];
     data := "0x"; logIndex := 1; blockNumber := 100 |}.


Definition transferFailedLog : RawLog :=
  {| address := addrB;
     topics := [transferFailedTopic; pad addrA; pad addrB];
     data := "0x" +:+ five +:+ five; logIndex := 0; blockNumber := 100 |}.

(** A log of an unknown event whose second topic is a full 32-byte
    value, not an address. *)
Definition wideTopic : string :=
  "0x3333333333333333333333333333333333333333333333333333333333333333".

Definition unknownLog : RawLog :=
  {| address := addrB; topics := [pausedTopic; wideTopic; pad addrB];
     data := "0x"; logIndex := 0; blockNumber := 100 |}.

Definition ownershipTransferredTopic : string :=
  "0x8be0079c531659141344cd1fd0a4f28419497f9722a3daafe3b4186f6b6457e0".

(** The ownership of a contract passes from [addrA] to [addrB]. *)
Definition ownershipLog : RawLog :=
  {| address := addrB;
     topics := [ownershipTransferredTopic; pad addrA; pad addrB];
     data := "0x"; logIndex := 0; blockNumber := 100 |}.

Definition ownableAbi : Js.Json :=
  Js.JArr [
    Js.JStr "event OwnershipTransferred(address indexed previousOwner, address indexed newOwner)" ].


End Examples.

Module CacheExamples.

Definition openClient : Redis.Client :=
  {| Redis.entries := ∅; Redis.online := true |}.

Definition mixedCase : string := "0xAbCdEf0123456789aBcDeF0123456789AbCdEf01".
Definition lowerCase : string := "0xabcdef0123456789abcdef0123456789abcdef01".

(** MonadScan knows the contract and returns the empty ABI; MonadExplorer
    is unreachable. *)
Definition explorers : ABIFetcher.Explorers :=
  {| ABIFetcher.monadScanGetAbi _ :=
       Ok (Some (Js.JObj [("status", Js.JStr "1");
                          ("message", Js.JStr "OK");
                          ("result", Js.JStr "[]")]));
     ABIFetcher.monadExplorerGetAbi _ := Throw "timeout of 10000ms exceeded" |}.

End CacheExamples.

Module RequestExamples.
Import Ethers.

Definition transaction0 : Transaction :=
  {| tx_from := Examples.addrA; tx_to := Some Examples.addrB;
     tx_value := 0; tx_gasPrice := 1; tx_nonce := 7;
     tx_data := "0xa9059cbb" |}.

Definition receipt0 : Receipt :=
  {| rc_blockNumber := 100; rc_gasUsed := 21000; rc_status := Some 1;
     rc_logs := [Examples.erc20Log] |}.

(** A node that has the transaction and its receipt and a contract
    without the token methods; [blocks] is its answer to [getBlock]. *)
Definition node (blocks : Result (option Block)) : Provider :=
  {| getTransaction _ := Ok (Some transaction0);
     getTransactionReceipt _ := Ok (Some receipt0);
     getBlock _ := blocks;
     Contract := string;
     newContract target _ :=
       match target with
       | Some a => Ok a
       | None => Throw "invalid value for Contract target"
       end;
     balanceOf _ _ := Throw "execution reverted";
     symbol _ := Throw "execution reverted";
     tokenName _ := Throw "execution reverted";
     decimals _ := Throw "execution reverted" |}.

Definition healthyNode : Provider :=
  node (Ok (Some {| timestamp := 1700000000 |})).


(** No key is configured. *)
Definition noKey : AIService.Endpoint :=
  {| AIService.apiKey := None;
     AIService.post _ _ _ _ _ := Throw "connect ECONNREFUSED" |}.

Definition hash0 : string :=
  "0x88df016429689c079f3b2f6ad39fa052532c56795b733da78a91ebe6a713944b".

Definition plainRequest : DisputeController.Body :=
  {| DisputeController.txHash := Some hash0;
     DisputeController.contractAddress := None;
     DisputeController.disputeDescription := None |}.

Definition disputeRequest : DisputeController.Body :=
  {| DisputeController.txHash := Some hash0;
     DisputeController.contractAddress := None;
     DisputeController.disputeDescription := Some "tokens never arrived" |}.

End RequestExamples.

(** * More of the code *)

(** ** utils/blockchain.js: the provider and the data cache *)

Module ProviderInit.

(** The two variables of the environment and the node: [getNetwork n] is
    the outcome of [await this.provider.getNetwork()] in the attempt made
    after [n] failed ones. *)
Record Env := {
  MONAD_RPC_URL : option string;
  ETHEREUM_RPC_URL : option string;
  getNetwork : nat → Result unit
}.

(** [a || b] on two variables of the environment *)
Definition orElse (a b : option string) : option string :=
  if Js.truthyOpt a then a else b.

(** The provider object is known by the URL it was built with; [slept]
    lists the delays of [setTimeout], in milliseconds, and [attempts]
    counts the entries into the [try] block. *)
Record State := {
  provider : option (option string);
  slept : list Z;
  attempts : nat
}.

Definition maxRetries : nat := 3.

Definition failure : string := "Failed to initialize provider after 3 attempts".

(** The [try] block of the loop, after the assignment of
    [this.provider] (building the provider object does not throw): the
    call of the node, then the log line, which reads
    [rpcUrl.includes('monad')]. *)
Definition tryBlock (env : Env) (retries : nat) : Result unit :=
  _ ← getNetwork env retries;
  match orElse (MONAD_RPC_URL env) (ETHEREUM_RPC_URL env) with
  | Some rpcUrl => mret tt
  | None => Throw "Cannot read properties of undefined (reading 'includes')"
  end.

(** [while (retries < maxRetries)], with fuel; [None] is a loop that did
    not finish within the fuel. *)
Fixpoint loop (env : Env) (fuel retries : nat) (st : State)
  : option (State * Result unit) :=
  match fuel with
  | O => None
  | S fuel' =>
      if (retries <? maxRetries)%nat then
        let st1 :=
          {| provider :=
               Some (orElse (MONAD_RPC_URL env) (ETHEREUM_RPC_URL env));
             slept := slept st; attempts := S (attempts st) |} in
        match tryBlock env retries with
        | Ok _ => Some (st1, Ok tt)
        | Throw _ =>
            let retries' := S retries in
            if (maxRetries <=? retries')%nat then Some (st1, Throw failure)
            else
              loop env fuel' retries'
                {| provider := provider st1;
                   slept := slept st1 ++ [1000 * Z.of_nat retries'];
                   attempts := attempts st1 |}
        end
      else Some (st, Ok tt)
  end.

(** [initProvider()], from the state the constructor leaves. *)
Definition initProvider (env : Env) : option (State * Result unit) :=
  loop env (S maxRetries) 0
    {| provider := None; slept := []; attempts := 0 |}.

(** The number of the first attempt that succeeds, among the first
    [n] ones from attempt [k] on. *)
Fixpoint firstSuccess (env : Env) (n k : nat) : option nat :=
  match n with
  | O => None
  | S n' =>
      if throws (tryBlock env k) then firstSuccess env n' (S k) else Some k
  end.

End ProviderInit.

Module DataCache.

Section DataCache.
Context `{ABIFetcher.JSON}.

(** [cacheData(key, data, ttl = 3600)] at time [now]: the client
    afterwards; [ttl] is [None] when the argument is left out. *)
Definition cacheData (redisClient : option Redis.Client) (now : Z)
    (key : string) (data : Js.Json) (ttl : option Z) : option Redis.Client :=
  match redisClient with
  | None => None
  | Some c =>
      match Redis.setEx c now key (default 3600 ttl)
              (ABIFetcher.stringify data) with
      | Ok c' => Some c'
      | Throw _ => Some c
      end
  end.

(** [getCachedData(key)] at time [now] *)
Definition getCachedData (redisClient : option Redis.Client) (now : Z)
    (key : string) : Js.Json :=
  match redisClient with
  | None => Js.JNull
  | Some c =>
      let block : Result Js.Json :=
        cached ← Redis.get c now key;
        match cached with
        | Some s =>
            if Js.truthyString s then ABIFetcher.parse s else mret Js.JNull
        | None => mret Js.JNull
        end in
      match block with
      | Ok v => v
      | Throw _ => Js.JNull
      end
  end.

End DataCache.

End DataCache.

(** ** config/database.js and the start of the server *)

Module Database.

(** [REDIS_URL], [Redis.createClient], which returns a client that is not
    connected yet, and [client.connect()], which leaves the client
    connected or throws.  A server that refuses the connection makes
    [connect] try again without end: [connectRedis] then does not return,
    and such a run is not among the ones described here. *)
Record Env := {
  REDIS_URL : option string;
  createClient : string → Result Redis.Client;
  connect : Redis.Client → Result Redis.Client
}.

(** [connectRedis()], on the module variable [redisClient]: the variable
    afterwards.  The variable is assigned before [connect] is awaited;
    the [catch] only logs. *)
Definition connectRedis (env : Env) (redisClient : option Redis.Client)
  : option Redis.Client :=
  match REDIS_URL env with
  | Some url =>
      if Js.truthyString url then
        match createClient env url with
        | Ok client =>
            match connect env client with
            | Ok connected => Some connected
            | Throw _ => Some client
            end
        | Throw _ => redisClient
        end
      else redisClient
  | None => redisClient
  end.

(** [getRedisClient()] *)
Definition getRedisClient (redisClient : option Redis.Client)
  : option Redis.Client := redisClient.

End Database.

Module Server.

(** The module variable of [config/database.js] and the field
    [redisClient] of the exported [BlockchainService] object. *)
Record Process := {
  databaseClient : option Redis.Client;
  serviceClient : option Redis.Client
}.

(** server.js, in the order of its statements: the [require] of
    [config/database] sets the variable to [null]; the [require] of the
    routes loads the controller and with it [utils/blockchain], whose
    last line builds the service, and the constructor reads
    [getRedisClient()]; [startServer()] then awaits [connectRedis()]. *)
Definition start (env : Database.Env) : Process :=
  let databaseClient := None in
  let serviceClient := Database.getRedisClient databaseClient in
  {| databaseClient := Database.connectRedis env databaseClient;
     serviceClient := serviceClient |}.

End Server.

(** ** utils/abiFetcher.js: the logs of a contract *)

Module ExplorerLogs.

(** [axios.get] on the [getLogs] action of MonadScan, for an address, a
    first and a last block: [response.data], or throws. *)
Class Explorer := {
  monadScanGetLogs : string → Js.Json → Js.Json → Result (option Js.Json)
}.

Section FetchLogs.
Context `{Explorer}.

(** [fetchLogsFromMonadScan(contractAddress, fromBlock = 0,
    toBlock = 'latest')]; an argument left out is [None]. *)
Definition fetchLogsFromMonadScan (contractAddress : string)
    (fromBlock toBlock : option Js.Json) : Js.Json :=
  let block : Result Js.Json :=
    data ← monadScanGetLogs contractAddress
              (default (Js.JNum 0) fromBlock)
              (default (Js.JStr "latest") toBlock);
    status ← Js.prop data "status";
    if ABIFetcher.isString status "1" then
      result ← Js.prop data "result";
      match result with
      | Some logs => if Js.truthy logs then mret logs else mret (Js.JArr [])
      | None => mret (Js.JArr [])
      end
    else mret (Js.JArr []) in
  match block with
  | Ok logs => logs
  | Throw _ => Js.JArr []
  end.

End FetchLogs.

End ExplorerLogs.

(** ** services/aiService.js: the prompt *)

Module Prompt.
Import BlockchainService.

(** [JSON.stringify(v, null, 2)] of the two objects of the prompt. *)
Class Rendering := {
  renderDetails : TransactionDetails → string;
  renderLogs : ParsedLogs → string
}.

(** A contract address in a template: the controller passes a string or
    the [null] of [transaction.to]. *)
Definition templateText (v : option string) : string :=
  match v with
  | Some s => s
  | None => "null"
  end.

Definition newline : string := String (ascii_of_nat 10) EmptyString.

Section Prompt.
Context `{Rendering}.

(** [buildDisputePrompt(txHash, contractAddress, disputeDescription, logs,
    transactionDetails)], line by line. *)
Definition buildDisputePrompt (txHash : string)
    (contractAddress : option string) (disputeDescription : string)
    (logs : ParsedLogs) (transactionDetails : TransactionDetails) : string :=
  String.concat newline
    [ "Analyze this blockchain transaction dispute:";
      "";
      "Transaction Hash: " +:+ txHash;
      "Contract Address: " +:+ templateText contractAddress;
      "";
      "User Dispute: " +:+ disputeDescription;
      "";
      "Transaction Details:";
      renderDetails transactionDetails;
      "";
      "Contract Logs:";
      renderLogs logs;
      "";
      "Based on the transaction logs and the user's complaint, determine:";
      "";
      "1. What actually happened in the transaction";
      "2. Whether the user's complaint is valid";
      "3. The appropriate resolution:";
      "";
      "   - **REFUND**: If the transaction failed or didn't complete as expected";
      "   - **NO REFUND**: If the transaction was successful and the user's claim is incorrect";
      "   - **NOT POSSIBLE**: If the transaction type doesn't support refunds or other technical reasons";
      "";
      "Provide a clear analysis explaining:";
      "- What the transaction did";
      "- Whether the user's complaint is justified";
      "- Your refund recommendation (REFUND/NO REFUND/NOT POSSIBLE)";
      "- Reasoning for your decision";
      "";
      "Be concise but thorough in your analysis." ].

End Prompt.

End Prompt.

(** ** middleware/validation.js *)

Module Validation.

(** [a || b] on numbers; [None] is [undefined] or [NaN]. *)
Definition orNumber (a b : option Z) : option Z :=
  match a with
  | Some n => if n =? 0 then b else Some n
  | None => b
  end.

(** [a || d] for a number [d] *)
Definition orDefault (a : option Z) (d : Z) : Z :=
  match a with
  | Some n => if n =? 0 then d else n
  | None => d
  end.

(** The options handed to [rateLimit]. *)
Record Limiter := {
  windowMs : Z;
  max : Z;
  message : string
}.

(** [createRateLimiter(windowMs, max, message = 'Too many requests')];
    [envWindow] and [envMax] are [parseInt] of the variables
    [RATE_LIMIT_WINDOW_MS] and [RATE_LIMIT_MAX_REQUESTS]. *)
Definition createRateLimiter (windowMs max : option Z)
    (message : option string) (envWindow envMax : option Z) : Limiter :=
  {| windowMs := orDefault (orNumber windowMs envWindow) 900000;
     max := orDefault (orNumber max envMax) 100;
     message := default "Too many requests" message |}.

(** The response of the limiter's [handler]. *)
Definition limited (l : Limiter) : DisputeController.Response :=
  {| DisputeController.status := 429;
     DisputeController.payload := DisputeController.Failure (message l) |}.

End Validation.

(** ** Examples for the added code *)

Module MoreExamples.
Import Ethers.

(** A node that does not have the transaction. *)
Definition nodeWithoutTransaction : Provider :=
  {| getTransaction _ := Ok None;
     getTransactionReceipt _ := Ok None;
     getBlock _ := Ok None;
     Contract := string;
     newContract target _ :=
       match target with
       | Some a => Ok a
       | None => Throw "invalid value for Contract target"
       end;
     balanceOf _ _ := Throw "execution reverted";
     symbol _ := Throw "execution reverted";
     tokenName _ := Throw "execution reverted";
     decimals _ := Throw "execution reverted" |}.

(** A node that has the transaction and not yet its receipt. *)
Definition nodeWithoutReceipt : Provider :=
  {| getTransaction _ := Ok (Some RequestExamples.transaction0);
     getTransactionReceipt _ := Ok None;
     getBlock _ := Ok None;
     Contract := string;
     newContract target _ :=
       match target with
       | Some a => Ok a
       | None => Throw "invalid value for Contract target"
       end;
     balanceOf _ _ := Throw "execution reverted";
     symbol _ := Throw "execution reverted";
     tokenName _ := Throw "execution reverted";
     decimals _ := Throw "execution reverted" |}.

(** No RPC URL is configured; a node answers on the default URL. *)
Definition withoutUrl : ProviderInit.Env :=
  {| ProviderInit.MONAD_RPC_URL := None;
     ProviderInit.ETHEREUM_RPC_URL := None;
     ProviderInit.getNetwork _ := Ok tt |}.

(** Redis is configured and reachable. *)
Definition redisReachable : Database.Env :=
  {| Database.REDIS_URL := Some "redis://localhost:6379";
     Database.createClient _ :=
       Ok {| Redis.entries := ∅; Redis.online := false |};
     Database.connect c :=
       Ok {| Redis.entries := Redis.entries c; Redis.online := true |} |}.

(** A node that has the transaction and its receipt and a token contract
    with 18 decimals. *)
Definition tokenNode : Provider :=
  {| getTransaction _ := Ok (Some RequestExamples.transaction0);
     getTransactionReceipt _ := Ok (Some RequestExamples.receipt0);
     getBlock _ := Ok (Some {| timestamp := 1700000000 |});
     Contract := string;
     newContract target _ :=
       match target with
       | Some a => Ok a
       | None => Throw "invalid value for Contract target"
       end;
     balanceOf _ _ := Ok "1000000";
     symbol _ := Ok "TKN";
     tokenName _ := Ok "Token";
     decimals _ := Ok 18 |}.

(** The explorer is unreachable. *)
Definition explorerDown : ExplorerLogs.Explorer :=
  {| ExplorerLogs.monadScanGetLogs _ _ _ := Throw "timeout of 10000ms exceeded" |}.

End MoreExamples.

(** ** Views of the added code used in the statements *)

Module LogOrder.
Import Ethers BlockchainService Classifier.

Section Views.
Context `{Lib}.

(** The entry of [transfers] a log gives, if it gives one. *)
Definition transferOf (log : RawLog) : option TransferRecord :=
  match decodeERC20 log with
  | Some (Erc20Transfer from to value) =>
      Some {| tr_type := "ERC20 Transfer"; tr_from := from; tr_to := to;
              tr_value := Some value; tr_tokenId := None;
              tr_logIndex := logIndex log;
              tr_blockNumber := blockNumber log |}
  | Some (Erc20Deposit _ _) => None
  | None =>
      match decodeERC721 log with
      | Some (Erc721Transfer from to tokenId) =>
          Some {| tr_type := "ERC721 Transfer"; tr_from := from; tr_to := to;
                  tr_value := None; tr_tokenId := Some tokenId;
                  tr_logIndex := logIndex log;
                  tr_blockNumber := blockNumber log |}
      | None => None
      end
  end.

(** The entry of [deposits] a log gives, if it gives one. *)
Definition depositOf (log : RawLog) : option DepositRecord :=
  match decodeERC20 log with
  | Some (Erc20Deposit from value) =>
      Some {| dep_type := "Deposit"; dep_from := from; dep_value := value;
              dep_logIndex := logIndex log;
              dep_blockNumber := blockNumber log |}
  | _ => None
  end.

(** The entry of [otherEvents] a log gives, if it gives one. *)
Definition otherOf (log : RawLog) : option RawEvent :=
  if unmatched log then
    Some {| raw_type := "Unknown Event"; raw_topics := topics log;
            raw_data := data log; raw_logIndex := logIndex log;
            raw_blockNumber := blockNumber log; raw_address := address log |}
  else None.

(** The value a log adds to the senders, if it adds one. *)
Definition senderOf (log : RawLog) : option (option string) :=
  match decodeERC20 log with
  | Some (Erc20Transfer from _ _) => Some from
  | Some (Erc20Deposit from _) => Some from
  | None =>
      match decodeERC721 log with
      | Some (Erc721Transfer from _ _) => Some from
      | None => Some <$> (topics log !! 1%nat ≫= topicAddress)
      end
  end.

(** The value a log adds to the receivers, if it adds one. *)
Definition receiverOf (log : RawLog) : option (option string) :=
  match decodeERC20 log with
  | Some (Erc20Transfer _ to _) => Some to
  | Some (Erc20Deposit _ _) => None
  | None =>
      match decodeERC721 log with
      | Some (Erc721Transfer _ to _) => Some to
      | None => Some <$> (topics log !! 2%nat ≫= topicAddress)
      end
  end.

End Views.

(** The values of a sequence in the order of their first occurrence, as a
    [Set] lists them. *)
Definition firstOccurrences (l : list (option string)) : list (option string) :=
  foldl (λ s x, Js.setAdd x s) [] l.

End LogOrder.

Module LimiterSpec.

(** The first number of a sequence that is neither missing nor 0, and
    [otherwise] when there is none. *)
Fixpoint firstTruthy (candidates : list (option Z)) (otherwise : Z) : Z :=
  match candidates with
  | [] => otherwise
  | Some n :: rest => if bool_decide (n = 0) then firstTruthy rest otherwise else n
  | None :: rest => firstTruthy rest otherwise
  end.

End LimiterSpec.

Module AbiOrder.
Import Ethers ABIFetcher.

Section Views.
Context `{Lib}.

(** The entry of [parsedEvents] a log gives, if it gives one: the decoded
    event, or the placeholder with the message of what was thrown, by the
    decoder or by the reading of an argument the event does not have. *)
Definition eventOf (iface : Interface) (log : RawLog) : option EventData :=
  let unknown message :=
    {| ev_name := "Unknown"; ev_args := []; ev_logIndex := logIndex log;
       ev_error := Some message |} in
  match parseLog iface log with
  | Ok (Some d) =>
      match mapToString (args d) with
      | Ok shown =>
          if AbiClassifier.readable (name d) shown then
            Some {| ev_name := name d; ev_args := shown;
                    ev_logIndex := logIndex log; ev_error := None |}
          else Some (unknown outOfRange)
      | Throw message => Some (unknown message)
      end
  | Ok None => None
  | Throw message => Some (unknown message)
  end.

End Views.

End AbiOrder.

(** * The standard path: [BlockchainService.parseLogs] *)

Section StandardPath.
Import Ethers BlockchainService Classifier.
Context `{Lib}.

Lemma tryERC20_decode pl log :
  tryERC20 pl log =
  match decodeERC20 log with
  | Some m => (recordERC20 m log pl, true)
  | None => (pl, false)
  end.
Proof.
  unfold tryERC20, decodeERC20.
  destruct (newInterface ERC20_ABI) as [iface|]; cbn; [|done].
  destruct (parseLog iface log) as [[d|]|]; cbn; try done.
  destruct (String.eqb (name d) "Transfer").
  - destruct (argAt d 0) as [from|]; cbn; [|done].
    destruct (argAt d 1) as [to|]; cbn; [|done].
    destruct (argAt d 2) as [v|]; cbn; [|done].
    by destruct (toString v).
  - destruct (String.eqb (name d) "Deposit"); [|done].
    destruct (argAt d 0) as [from|]; cbn; [|done].
    destruct (argAt d 1) as [v|]; cbn; [|done].
    by destruct (toString v).
Qed.

Lemma tryERC721_decode pl log :
  tryERC721 pl log =
  match decodeERC721 log with
  | Some m => (recordERC721 m log pl, true)
  | None => (pl, false)
  end.
Proof.
  unfold tryERC721, decodeERC721.
  destruct (newInterface ERC721_ABI) as [iface|]; cbn; [|done].
  destruct (parseLog iface log) as [[d|]|]; cbn; try done.
  destruct (String.eqb (name d) "Transfer"); [|done].
  destruct (argAt d 0) as [from|]; cbn; [|done].
  destruct (argAt d 1) as [to|]; cbn; [|done].
  destruct (argAt d 2) as [v|]; cbn; [|done].
  by destruct (toString v).
Qed.

(** The address guesses leave the three buckets and the contract type
    alone. *)
Lemma extractAddresses_buckets ts : ∀ i pl,
  transfers (extractAddresses i ts pl) = transfers pl ∧
  deposits (extractAddresses i ts pl) = deposits pl ∧
  otherEvents (extractAddresses i ts pl) = otherEvents pl ∧
  contractType (extractAddresses i ts pl) = contractType pl.
Proof.
  induction ts as [|topic rest IH]; intros i pl; [done|].
  cbn [extractAddresses].
  destruct (IH (S i)
    match topicAddress topic with
    | Some a =>
        if (i =? 1)%nat then addSender (Some a) pl
        else if (i =? 2)%nat then addReceiver (Some a) pl else pl
    | None => pl
    end) as (-> & -> & -> & ->).
  destruct (topicAddress topic); [|done].
  by destruct (i =? 1)%nat, (i =? 2)%nat.
Qed.

End StandardPath.

(** * Coverage of the two classifiers *)

Section Coverage.
Import Ethers.
Context `{Lib}.

Lemma step_by_cases pl log :
  BlockchainService.step pl log =
  match Classifier.decodeERC20 log with
  | Some m => Classifier.recordERC20 m log pl
  | None =>
      match Classifier.decodeERC721 log with
      | Some m => Classifier.recordERC721 m log pl
      | None => BlockchainService.unknownEvent pl log
      end
  end.
Proof.
  unfold BlockchainService.step, BlockchainService.processLog.
  rewrite tryERC20_decode.
  destruct (Classifier.decodeERC20 log) as [m|]; [done|].
  rewrite tryERC721_decode.
  by destruct (Classifier.decodeERC721 log) as [m|].
Qed.

Lemma step_placed pl log :
  StandardCoverage.placed (Classifier.bucketOf log) log pl
    (BlockchainService.step pl log).
Proof.
  rewrite step_by_cases. unfold Classifier.bucketOf.
  destruct (Classifier.decodeERC20 log) as [[]|]; cbn.
  - split_and!; [eexists; split; [done|done]|done..].
  - split_and!; [done|eexists; split; [done|done]|done].
  - destruct (Classifier.decodeERC721 log) as [[]|]; cbn.
    + split_and!; [eexists; split; [done|done]|done..].
    + destruct (extractAddresses_buckets (drop 1 (topics log)) 1 pl)
        as (Ht & Hd & Ho & _).
      split_and!; [done..|]. eexists; split; [by rewrite Ho|done].
Qed.

Lemma step_size pl log :
  StandardCoverage.categorySize (BlockchainService.step pl log)
  = S (StandardCoverage.categorySize pl).
Proof.
  pose proof (step_placed pl log) as Hp.
  unfold StandardCoverage.categorySize.
  destruct (Classifier.bucketOf log); cbn in Hp.
  - destruct Hp as ((r & -> & _) & -> & ->). rewrite length_app. cbn. lia.
  - destruct Hp as (-> & (r & -> & _) & ->). rewrite length_app. cbn. lia.
  - destruct Hp as (-> & -> & (r & -> & _)). rewrite length_app. cbn. lia.
Qed.

Lemma foldl_step_size logs : ∀ pl,
  StandardCoverage.categorySize (foldl BlockchainService.step pl logs)
  = (StandardCoverage.categorySize pl + length logs)%nat.
Proof.
  induction logs as [|log logs IH]; intros pl; cbn; [lia|].
  rewrite IH, step_size. lia.
Qed.

Lemma argAt_shown d shown i :
  ABIFetcher.mapToString (args d) = Ok shown →
  argAt d i
  = match shown !! i with
    | Some s => Ok (Some s)
    | None => Throw outOfRange
    end.
Proof.
  unfold argAt. generalize (args d). intros l. revert shown i.
  induction l as [|[s|m] l IH]; intros shown i Hs; cbn in Hs.
  - by injection Hs as <-.
  - destruct (ABIFetcher.mapToString l) as [rest|]; cbn in Hs; [|done].
    injection Hs as <-. destruct i as [|i]; [done|]. cbn. by apply IH.
  - done.
Qed.

Lemma categorize_decoded d shown log pl :
  ABIFetcher.mapToString (args d) = Ok shown →
  ABIFetcher.categorize d log pl
  = if AbiClassifier.readable (name d) shown
    then Ok (AbiClassifier.classified (name d) shown (logIndex log) pl)
    else Throw outOfRange.
Proof.
  intros Hs.
  unfold ABIFetcher.categorize, AbiClassifier.classified,
    AbiClassifier.readable, AbiClassifier.bucketOfName.
  rewrite !(argAt_shown d shown) by done.
  destruct (Js.includes (Js.toLowerCase (name d)) "transfer"); [|done].
  destruct (Js.includes (Js.toLowerCase (name d)) "failed");
    [|destruct (Js.includes (Js.toLowerCase (name d)) "partial")];
    by destruct shown as [|a0 [|a1 [|a2 [|a3 rest]]]].
Qed.

Lemma abi_step_decoded iface pl log d shown :
  AbiClassifier.decoded iface log = Some (d, shown) →
  ABIFetcher.step iface pl log
  = if AbiClassifier.readable (name d) shown then
      ABIFetcher.pushEvent
        {| ABIFetcher.ev_name := name d; ABIFetcher.ev_args := shown;
           ABIFetcher.ev_logIndex := logIndex log;
           ABIFetcher.ev_error := None |}
        (AbiClassifier.classified (name d) shown (logIndex log) pl)
    else
      ABIFetcher.pushEvent
        {| ABIFetcher.ev_name := "Unknown"; ABIFetcher.ev_args := [];
           ABIFetcher.ev_logIndex := logIndex log;
           ABIFetcher.ev_error := Some outOfRange |} pl.
Proof.
  unfold AbiClassifier.decoded, ABIFetcher.step. intros Hd.
  destruct (parseLog iface log) as [[d'|]|]; [|done..].
  destruct (ABIFetcher.mapToString (args d')) as [shown'|] eqn:Hs; [|done].
  injection Hd as -> ->. cbn. rewrite Hs. cbn.
  rewrite (categorize_decoded d shown log pl Hs).
  by destruct (AbiClassifier.readable (name d) shown).
Qed.

Lemma abi_step_undecoded iface pl log :
  AbiClassifier.decoded iface log = None →
  ABIFetcher.transfers (ABIFetcher.step iface pl log) = ABIFetcher.transfers pl
  ∧ ABIFetcher.failures (ABIFetcher.step iface pl log) = ABIFetcher.failures pl
  ∧ ABIFetcher.partialTransfers (ABIFetcher.step iface pl log)
    = ABIFetcher.partialTransfers pl.
Proof.
  unfold AbiClassifier.decoded, ABIFetcher.step. intros Hd.
  destruct (parseLog iface log) as [[d|]|]; cbn; [|done..].
  destruct (ABIFetcher.mapToString (args d)); [done|]. by cbn.
Qed.

Lemma classified_placed name shown log pl :
  AbiClassifier.placed (AbiClassifier.bucketOfName name) log pl
    (ABIFetcher.pushEvent
       {| ABIFetcher.ev_name := name; ABIFetcher.ev_args := shown;
          ABIFetcher.ev_logIndex := logIndex log;
          ABIFetcher.ev_error := None |}
       (AbiClassifier.classified name shown (logIndex log) pl)).
Proof.
  unfold AbiClassifier.classified.
  destruct (AbiClassifier.bucketOfName name) as [[]|]; cbn;
    split_and!; try done; by eexists.
Qed.

Lemma abi_step_placed iface pl log :
  AbiClassifier.placed (AbiClassifier.recordedIn iface log) log pl
    (ABIFetcher.step iface pl log).
Proof.
  unfold AbiClassifier.recordedIn.
  destruct (AbiClassifier.decoded iface log) as [[d shown]|] eqn:Hd.
  - rewrite (abi_step_decoded iface pl log d shown Hd).
    destruct (AbiClassifier.readable (name d) shown); [|done].
    apply classified_placed.
  - by apply abi_step_undecoded.
Qed.

Lemma abi_step_size iface pl log :
  AbiClassifier.categorySize (ABIFetcher.step iface pl log)
  = (AbiClassifier.categorySize pl
     + match AbiClassifier.recordedIn iface log with
       | Some _ => 1
       | None => 0
       end)%nat.
Proof.
  pose proof (abi_step_placed iface pl log) as Hp.
  unfold AbiClassifier.categorySize.
  destruct (AbiClassifier.recordedIn iface log) as [[]|]; cbn in Hp.
  - destruct Hp as ((r & -> & _) & -> & ->). rewrite length_app. cbn. lia.
  - destruct Hp as (-> & (r & -> & _) & ->). rewrite length_app. cbn. lia.
  - destruct Hp as (-> & -> & (r & -> & _)). rewrite length_app. cbn. lia.
  - destruct Hp as (-> & -> & ->). lia.
Qed.

Lemma abi_foldl_size iface logs : ∀ pl,
  AbiClassifier.categorySize (foldl (ABIFetcher.step iface) pl logs)
  = (AbiClassifier.categorySize pl
     + length (omap (AbiClassifier.recordedIn iface) logs))%nat.
Proof.
  induction logs as [|log logs IH]; intros pl; cbn; [lia|].
  rewrite IH, abi_step_size.
  destruct (AbiClassifier.recordedIn iface log); cbn; lia.
Qed.

Lemma recordedIn_bucketOf iface log :
  is_Some (AbiClassifier.recordedIn iface log) →
  is_Some (AbiClassifier.bucketOf iface log).
Proof.
  unfold AbiClassifier.recordedIn, AbiClassifier.bucketOf.
  destruct (AbiClassifier.decoded iface log) as [[d shown]|]; [|done].
  destruct (AbiClassifier.readable (name d) shown); [done|by intros []].
Qed.

Lemma omap_length_mono {A B C} (f : A → option B) (g : A → option C) l :
  (∀ x, is_Some (f x) → is_Some (g x)) →
  (length (omap f l) ≤ length (omap g l))%nat.
Proof.
  intros Hfg. induction l as [|x l IH]; cbn; [lia|].
  destruct (f x) eqn:Hf.
  - destruct (Hfg x) as [y ->]; [by rewrite Hf|]. cbn. lia.
  - destruct (g x); cbn; lia.
Qed.

Lemma omap_length_le {A B} (f : A → option B) (l : list A) :
  (length (omap f l) ≤ length l)%nat.
Proof.
  induction l as [|x l IH]; cbn; [lia|].
  destruct (f x); cbn; lia.
Qed.


End Coverage.


(** * Schema order, contract type and address guesses on the standard path *)

Section StandardProperties.
Import Ethers BlockchainService Classifier.
Context `{Lib}.

Lemma contractType_step pl log :
  contractType (step pl log)
  = default (contractType pl) (typeWrittenBy log).
Proof.
  rewrite step_by_cases. unfold typeWrittenBy.
  destruct (decodeERC20 log) as [[]|]; [done..|].
  destruct (decodeERC721 log) as [[]|]; [done|].
  cbn. by destruct (extractAddresses_buckets (drop 1 (topics log)) 1 pl)
    as (_ & _ & _ & ->).
Qed.

Lemma contractType_foldl logs : ∀ pl,
  contractType (foldl step pl logs)
  = default (contractType pl) (last (omap typeWrittenBy logs)).
Proof.
  induction logs as [|log logs IH]; intros pl; cbn; [done|].
  rewrite IH, contractType_step.
  destruct (typeWrittenBy log) as [t|]; cbn; [|done].
  rewrite last_cons. by destruct (last (omap typeWrittenBy logs)).
Qed.

Lemma extractAddresses_high ts : ∀ i pl,
  (3 ≤ i)%nat → extractAddresses i ts pl = pl.
Proof.
  induction ts as [|topic rest IH]; intros i pl Hi; cbn; [done|].
  destruct i as [|[|[|i]]]; try lia.
  destruct (topicAddress topic); cbn; apply IH; lia.
Qed.

(** The loop over the topics, from index 1 on, in closed form. *)
Lemma extractAddresses_from_1 ts pl :
  extractAddresses 1 ts pl =
  let pl1 :=
    match ts !! 0%nat ≫= topicAddress with
    | Some a => addSender (Some a) pl
    | None => pl
    end in
  match ts !! 1%nat ≫= topicAddress with
  | Some a => addReceiver (Some a) pl1
  | None => pl1
  end.
Proof.
  destruct ts as [|t1 [|t2 rest]]; cbn.
  - done.
  - by destruct (topicAddress t1).
  - rewrite extractAddresses_high by lia.
    by destruct (topicAddress t1), (topicAddress t2).
Qed.

Lemma topicAddress_spec topic a :
  topicAddress topic = Some a
  ↔ String.length topic = 66%nat
    ∧ getAddress ("0x" +:+ Js.slice 26 topic) = Ok a.
Proof.
  unfold topicAddress.
  destruct (Nat.eqb_spec (String.length topic) 66) as [Hl|Hl].
  - destruct (getAddress _) as [a'|m]; split.
    + intros [= ->]. done.
    + intros [_ [= ->]]. done.
    + done.
    + intros [_ ?]. done.
  - split; [done|]. intros [? _]. done.
Qed.

(** C5.  For every log the ERC-20 schema is tried first and the ERC-721
    schema second; the ERC-721 schema is tried exactly when the ERC-20
    one produced no match; the first schema that matches decides the
    record (a log that the ERC-20 schema matches is recorded by the
    ERC-20 branch whatever the ERC-721 schema would decode); and one log
    adds at most one record to the decoded buckets. *)
Theorem schema_first_match_wins pl log :
  snd (processLog pl log)
  = SchemaERC20 ::
      match decodeERC20 log with
      | Some _ => []
      | None => [SchemaERC721]
      end
  ∧ fst (processLog pl log)
    = match decodeERC20 log with
      | Some m => recordERC20 m log pl
      | None =>
          match decodeERC721 log with
          | Some m => recordERC721 m log pl
          | None => unknownEvent pl log
          end
      end
  ∧ (length (transfers (fst (processLog pl log)))
     + length (deposits (fst (processLog pl log)))
     ≤ S (length (transfers pl) + length (deposits pl)))%nat.
Proof.
  split_and!.
  - unfold processLog. rewrite tryERC20_decode.
    destruct (decodeERC20 log) as [m|]; [done|].
    rewrite tryERC721_decode.
    by destruct (decodeERC721 log) as [m|].
  - apply step_by_cases.
  - pose proof (step_placed pl log) as Hp. unfold step in Hp.
    destruct (bucketOf log); cbn in Hp.
    + destruct Hp as ((r & -> & _) & -> & _). rewrite length_app. cbn. lia.
    + destruct Hp as (-> & (r & -> & _) & _). rewrite length_app. cbn. lia.
    + destruct Hp as (-> & -> & _). lia.
Qed.

(** C9.  The contract type returned is the one written by the last log
    that matches a schema ("ERC20" for an ERC-20 Transfer or Deposit,
    "ERC721" for an ERC-721 Transfer), and "Unknown" when no log
    matches. *)
Theorem contractType_last_writer_wins logs contractAddress :
  contractType (parseLogs logs contractAddress)
  = default "Unknown" (last (omap typeWrittenBy logs)).
Proof. unfold parseLogs. by rewrite contractType_foldl. Qed.

(** C7, as amended.  For a log that no schema matches, [topics[1]]
    gives a sender and [topics[2]] a receiver, each on its own, exactly
    when the topic is 66 characters long and [getAddress] accepts the
    text made of "0x" and the topic from its character 26 on; what
    stands before character 26 is not looked at.  No other topic
    contributes. *)
Theorem address_guess_from_topics pl log :
  unmatched log = true →
  senderAddresses (step pl log)
  = match topics log !! 1%nat ≫= topicAddress with
    | Some a => Js.setAdd (Some a) (senderAddresses pl)
    | None => senderAddresses pl
    end
  ∧ receiverAddresses (step pl log)
    = match topics log !! 2%nat ≫= topicAddress with
      | Some a => Js.setAdd (Some a) (receiverAddresses pl)
      | None => receiverAddresses pl
      end
  ∧ ∀ topic a,
      topicAddress topic = Some a
      ↔ String.length topic = 66%nat
        ∧ getAddress ("0x" +:+ Js.slice 26 topic) = Ok a.
Proof.
  intros Hu. rewrite step_by_cases. unfold unmatched in Hu.
  destruct (decodeERC20 log); [done|].
  destruct (decodeERC721 log); [done|].
  unfold unknownEvent. rewrite extractAddresses_from_1. cbn.
  rewrite !lookup_drop. cbn.
  split_and!; [| |apply topicAddress_spec].
  - by destruct (topics log !! 1%nat ≫= topicAddress),
      (topics log !! 2%nat ≫= topicAddress).
  - by destruct (topics log !! 1%nat ≫= topicAddress),
      (topics log !! 2%nat ≫= topicAddress).
Qed.

End StandardProperties.

Lemma address_guess_from_topics_witness :
  Classifier.unmatched (H := Reference.lib) Examples.unknownLog = true
  ∧ BlockchainService.senderAddresses
      (BlockchainService.step (H := Reference.lib)
         BlockchainService.emptyParsedLogs Examples.unknownLog)
    = [Some "0x3333333333333333333333333333333333333333"].
Proof.
  split; [reflexivity|].
  destruct (address_guess_from_topics (H := Reference.lib)
              BlockchainService.emptyParsedLogs Examples.unknownLog)
    as (-> & _); reflexivity.
Defined.

(** C7, as stated, fails: the second topic of this unmatched log is a
    full 32-byte value without zero padding, and its last 20 bytes are
    added to the senders. *)
Lemma address_guess_counterexample :
  let r := @BlockchainService.parseLogs Reference.lib
             [Examples.unknownLog] None in
  Classifier.unmatched (H := Reference.lib) Examples.unknownLog = true
  ∧ String.prefix "0x000000000000000000000000" Examples.wideTopic = false
  ∧ BlockchainService.senderAddresses r
    = [Some "0x3333333333333333333333333333333333333333"].
Proof. vm_compute. done. Qed.

(** The scenarios of the classifier: an ERC-20 transfer of 5 gives the
    transfer record and the type "ERC20"; in a mixed sequence the later
    log decides the type. *)
Example erc20_transfer_scenario :
  let r := @BlockchainService.parseLogs Reference.lib [Examples.erc20Log] None in
  BlockchainService.transfers r
  = [ {| BlockchainService.tr_type := "ERC20 Transfer";
         BlockchainService.tr_from := Some Examples.addrA;
         BlockchainService.tr_to := Some Examples.addrB;
         BlockchainService.tr_value := Some "5";
         BlockchainService.tr_tokenId := None;
         BlockchainService.tr_logIndex := 0;
         BlockchainService.tr_blockNumber := 100 |} ]
  ∧ BlockchainService.contractType r = "ERC20".
Proof. vm_compute. done. Qed.

Example mixed_sequence_scenario :
  BlockchainService.contractType
    (@BlockchainService.parseLogs Reference.lib
       [Examples.erc20Log; Examples.erc721Log] None) = "ERC721"
  ∧ BlockchainService.contractType
      (@BlockchainService.parseLogs Reference.lib
         [Examples.erc721Log; Examples.erc20Log; Examples.unknownLog] None)
    = "ERC20".
Proof. vm_compute. done. Qed.

(** * The transaction pattern analyzer *)

Section Pattern.
Import Ethers BlockchainService PatternSpec.

Lemma nonempty_length {A} (l : list A) :
  (0 <? length l)%nat = bool_decide (l ≠ []).
Proof. by destruct l. Qed.

Lemma calldata_test (s : string) :
  Js.truthyString s && negb (String.eqb s "0x")
  = bool_decide (s ≠ "" ∧ s ≠ "0x").
Proof.
  unfold Js.truthyString.
  destruct (String.eqb_spec s "") as [->|Hne]; [done|].
  destruct (String.eqb_spec s "0x") as [->|Hn0]; cbn.
  - symmetry. apply bool_decide_eq_false. intros [_ ?]. done.
  - symmetry. by apply bool_decide_eq_true.
Qed.

(** C3.  The summary type is the result of the first rule that holds, in
    the order: a transfer record, a deposit record, calldata that is
    neither empty nor "0x", a positive native value; "unknown" when none
    holds.  The success flag is true exactly when the status of the
    receipt is 1. *)
Theorem pattern_first_match_priority transaction receipt parsedLogs :
  an_type (analyzeTransactionPattern transaction receipt parsedLogs)
  = summaryType transaction parsedLogs
  ∧ an_success (analyzeTransactionPattern transaction receipt parsedLogs)
    = bool_decide (rc_status receipt = Some 1).
Proof.
  unfold analyzeTransactionPattern, summaryType.
  rewrite !nonempty_length, calldata_test.
  split.
  - cbn [firstMatch].
    destruct (bool_decide (transfers parsedLogs ≠ [])); [done|].
    destruct (bool_decide (deposits parsedLogs ≠ [])); [done|].
    destruct (bool_decide (_ ∧ _)); [done|].
    destruct (Z.ltb_spec 0 (tx_value transaction)) as [Hv|Hv]; cbn.
    + by rewrite bool_decide_eq_true_2.
    + rewrite bool_decide_eq_false_2; [done|lia].
  - assert (an_success
              (analyzeTransactionPattern transaction receipt parsedLogs)
            = statusIsOne receipt) as Hs.
    { unfold analyzeTransactionPattern.
      by repeat match goal with |- context [if ?c then _ else _] =>
           destruct c end. }
    unfold analyzeTransactionPattern in Hs.
    rewrite !nonempty_length, calldata_test in Hs. rewrite Hs.
    unfold statusIsOne. destruct (rc_status receipt) as [s|]; [|done].
    destruct (Z.eqb_spec s 1) as [->|Hs1]; [done|].
    symmetry. apply bool_decide_eq_false. congruence.
Qed.

End Pattern.

(** Empty calldata, no value and no event give "unknown". *)
Example unknown_pattern_scenario :
  BlockchainService.an_type
    (BlockchainService.analyzeTransactionPattern
       {| Ethers.tx_from := Examples.addrA; Ethers.tx_to := Some Examples.addrB;
          Ethers.tx_value := 0; Ethers.tx_gasPrice := 1; Ethers.tx_nonce := 0;
          Ethers.tx_data := "0x" |}
       {| Ethers.rc_blockNumber := 100; Ethers.rc_gasUsed := 21000;
          Ethers.rc_status := Some 1; Ethers.rc_logs := [] |}
       BlockchainService.emptyParsedLogs) = "unknown".
Proof. reflexivity. Qed.

(** * Classification by name on the custom-ABI path *)

Section AbiNames.
Import Ethers ABIFetcher.
Context `{Lib}.

(** X26.  A log that decodes to an event whose lower-cased name contains
    "transfer" and which has the arguments its record reads adds exactly
    one record and its entry in [parsedEvents]: a failure with from, to,
    amount and reason when the name also contains "failed"; else a
    partial transfer with from, to, requested and sent when it contains
    "partial"; else a transfer with from, to and amount.  The fields are
    the arguments by position, and the other two buckets stay as they
    are. *)
Theorem abi_records_by_name iface pl log d shown a0 a1 a2 :
  AbiClassifier.decoded iface log = Some (d, shown) →
  Js.includes (Js.toLowerCase (name d)) "transfer" = true →
  shown !! 0%nat = Some a0 →
  shown !! 1%nat = Some a1 →
  shown !! 2%nat = Some a2 →
  let pl' := step iface pl log in
  let entry :=
    {| ev_name := name d; ev_args := shown; ev_logIndex := logIndex log;
       ev_error := None |} in
  if Js.includes (Js.toLowerCase (name d)) "failed" then
    ∀ a3, shown !! 3%nat = Some a3 →
      failures pl'
      = failures pl
        ++ [ {| fail_type := name d; fail_from := Some a0;
                fail_to := Some a1; fail_amount := Some a2;
                fail_reason := Some a3; fail_logIndex := logIndex log |} ]
      ∧ partialTransfers pl' = partialTransfers pl
      ∧ transfers pl' = transfers pl
      ∧ parsedEvents pl' = parsedEvents pl ++ [entry]
  else if Js.includes (Js.toLowerCase (name d)) "partial" then
    ∀ a3, shown !! 3%nat = Some a3 →
      partialTransfers pl'
      = partialTransfers pl
        ++ [ {| part_type := name d; part_from := Some a0;
                part_to := Some a1; part_requested := Some a2;
                part_sent := Some a3; part_logIndex := logIndex log |} ]
      ∧ failures pl' = failures pl
      ∧ transfers pl' = transfers pl
      ∧ parsedEvents pl' = parsedEvents pl ++ [entry]
  else
    transfers pl'
    = transfers pl
      ++ [ {| tr_type := name d; tr_from := Some a0; tr_to := Some a1;
              tr_amount := Some a2; tr_logIndex := logIndex log |} ]
    ∧ failures pl' = failures pl
    ∧ partialTransfers pl' = partialTransfers pl
    ∧ parsedEvents pl' = parsedEvents pl ++ [entry].
Proof.
  intros Hd Ht H0 H1 H2. cbn zeta.
  rewrite (abi_step_decoded iface pl log d shown Hd).
  unfold AbiClassifier.readable, AbiClassifier.classified,
    AbiClassifier.bucketOfName.
  rewrite Ht.
  destruct shown as [|b0 [|b1 [|b2 rest]]]; try done.
  cbn in H0, H1, H2. injection H0 as ->. injection H1 as ->.
  injection H2 as ->.
  destruct (Js.includes (Js.toLowerCase (name d)) "failed").
  - intros a3 H3. destruct rest as [|b3 rest]; [done|].
    cbn in H3. by injection H3 as ->.
  - destruct (Js.includes (Js.toLowerCase (name d)) "partial"); [|done].
    intros a3 H3. destruct rest as [|b3 rest]; [done|].
    cbn in H3. by injection H3 as ->.
Qed.

End AbiNames.

Lemma abi_records_by_name_witness :
  ABIFetcher.failures
    (ABIFetcher.step (H := Reference.lib)
       (omap Reference.fragmentOf
          [Js.JStr "event TransferFailed(address indexed from, address indexed to, uint256 amount, uint256 reason)"])
       ABIFetcher.emptyParsedLogs Examples.transferFailedLog)
  = [ {| ABIFetcher.fail_type := "TransferFailed";
         ABIFetcher.fail_from := Some Examples.addrA;
         ABIFetcher.fail_to := Some Examples.addrB;
         ABIFetcher.fail_amount := Some "5";
         ABIFetcher.fail_reason := Some "5";
         ABIFetcher.fail_logIndex := 0 |} ].
Proof.
  pose proof (abi_records_by_name (H := Reference.lib)
                (omap Reference.fragmentOf
                   [Js.JStr "event TransferFailed(address indexed from, address indexed to, uint256 amount, uint256 reason)"])
                ABIFetcher.emptyParsedLogs Examples.transferFailedLog
                {| Ethers.name := "TransferFailed";
                   Ethers.args :=
                     [Ethers.ArgValue Examples.addrA;
                      Ethers.ArgValue Examples.addrB;
                      Ethers.ArgValue "5"; Ethers.ArgValue "5"] |}
                [Examples.addrA; Examples.addrB; "5"; "5"]
                Examples.addrA Examples.addrB "5"
                eq_refl eq_refl eq_refl eq_refl eq_refl) as Hrecord.
  exact (proj1 (Hrecord "5" eq_refl)).
Defined.

(** C4, at the log of an [OwnershipTransferred(address,address)] event
    decoded with the ABI of its contract.  The name contains "transfer"
    and the event decodes, with its two arguments; the transfer branch
    reads a third one, which throws, so the log is in no bucket and
    [parsedEvents] holds the "Unknown" placeholder in place of the
    event. *)
Theorem transfer_named_event_with_two_arguments :
  let r := @ABIFetcher.parseLogsWithABI Reference.lib
             [Examples.ownershipLog] Examples.addrB Examples.ownableAbi in
  AbiClassifier.bucketOfName "OwnershipTransferred"
  = Some AbiClassifier.Transfers
  ∧ match @Ethers.newInterface Reference.lib Examples.ownableAbi with
    | Ok iface =>
        AbiClassifier.decoded (H := Reference.lib) iface Examples.ownershipLog
        = Some ({| Ethers.name := "OwnershipTransferred";
                   Ethers.args :=
                     [Ethers.ArgValue Examples.addrA;
                      Ethers.ArgValue Examples.addrB] |},
                [Examples.addrA; Examples.addrB])
    | Throw _ => False
    end
  ∧ ABIFetcher.transfers r = []
  ∧ ABIFetcher.failures r = []
  ∧ ABIFetcher.partialTransfers r = []
  ∧ ABIFetcher.parsedEvents r
    = [ {| ABIFetcher.ev_name := "Unknown"; ABIFetcher.ev_args := [];
           ABIFetcher.ev_logIndex := 0;
           ABIFetcher.ev_error := Some "out of result range" |} ].
Proof. vm_compute. done. Qed.

(** * The ABI cache and the resolver *)

Section Cache.
Import ABIFetcher.
Context `{JSON}.

Lemma cacheKey_casing a1 a2 :
  Js.toLowerCase a1 = Js.toLowerCase a2 → cacheKey a1 = cacheKey a2.
Proof. unfold cacheKey. by intros ->. Qed.

(** The entry that [cacheABI] writes through an open client. *)
Lemma cacheABI_online c now contractAddress abi :
  Redis.online c = true →
  cacheABI (Some c) now contractAddress abi
  = Some {| Redis.entries :=
              <[cacheKey contractAddress := (stringify abi, now + 86400)]>
                (Redis.entries c);
            Redis.online := true |}.
Proof. intros Ho. unfold cacheABI, Redis.setEx. by rewrite Ho. Qed.

(** C8, as amended.  Through an open Redis client, and for a document
    that [JSON.parse] gives back from its [JSON.stringify] text,
    [cacheABI] followed by [getCachedABI] returns the document stored,
    for any casing of the address on either side, as long as fewer than
    86400 seconds have passed; from then on [getCachedABI] returns
    [null].  Without a client [cacheABI] stores nothing and
    [getCachedABI] returns [null]. *)
Theorem cache_round_trip c now later a1 a2 abi :
  Redis.online c = true →
  Js.toLowerCase a1 = Js.toLowerCase a2 →
  parse (stringify abi) = Ok abi →
  stringify abi ≠ "" →
  getCachedABI (cacheABI (Some c) now a1 abi) later a2
  = (if later <? now + 86400 then abi else Js.JNull)
  ∧ getCachedABI (cacheABI None now a1 abi) later a2 = Js.JNull.
Proof.
  intros Ho Hcase Hparse Hne. split; [|done].
  rewrite cacheABI_online by done.
  unfold getCachedABI, Redis.get. cbn.
  rewrite (cacheKey_casing a1 a2 Hcase), lookup_insert_eq.
  destruct (later <? now + 86400); [|done].
  unfold Js.truthyString.
  destruct (String.eqb_spec (stringify abi) ""); [done|].
  cbn. by rewrite Hparse.
Qed.

End Cache.

Lemma cache_round_trip_witness :
  ABIFetcher.getCachedABI (H := Reference.json)
    (ABIFetcher.cacheABI (H := Reference.json)
       (Some CacheExamples.openClient) 1000 CacheExamples.mixedCase
       (Js.JArr []))
    1000 CacheExamples.lowerCase
  = Js.JArr [].
Proof.
  apply (cache_round_trip (H := Reference.json) CacheExamples.openClient
           1000 1000 CacheExamples.mixedCase CacheExamples.lowerCase
           (Js.JArr [])); [reflexivity..|discriminate].
Defined.

(** C8, as stated, fails when the fetcher has no Redis client: the
    document stored is not returned. *)
Lemma cache_round_trip_counterexample :
  ABIFetcher.getCachedABI (H := Reference.json)
    (ABIFetcher.cacheABI (H := Reference.json) None 1000
       CacheExamples.lowerCase (Js.JArr []))
    1000 CacheExamples.lowerCase
  ≠ Js.JArr [].
Proof. cbn. discriminate. Qed.

Section Resolver.
Import ABIFetcher.
Context `{JSON} `{Explorers}.

Lemma fetchFromMonadExplorer_absent_or_truthy contractAddress :
  fetchFromMonadExplorer contractAddress = Js.JNull
  ∨ Js.truthy (fetchFromMonadExplorer contractAddress) = true.
Proof.
  unfold fetchFromMonadExplorer.
  destruct (monadExplorerGetAbi contractAddress) as [data|]; cbn; [|by left].
  destruct (Js.truthyU data); [|by left].
  destruct (Js.prop data "abi") as [[abi|]|]; cbn; [|by left..].
  destruct (Js.truthy abi) eqn:Ht; cbn; [by right|by left].
Qed.

(** C6, as amended.  [fetchABI] asks the cache first and, on a hit,
    returns it without calling an explorer.  On a miss it calls
    MonadScan, and MonadExplorer only when MonadScan gave nothing; the
    first result found is returned, after [cacheABI] was run on it,
    which stores it for 86400 seconds when the fetcher has an open Redis
    client and stores nothing when it has no client.  A source that
    throws, MonadScan's reply "Contract source code not verified" and a
    reply that does not parse all count as nothing found.  The value
    returned is [null] or a document; nothing is thrown. *)
Theorem fetchABI_resolution redisClient now contractAddress :
  let r := fetchABI redisClient now contractAddress in
  let cached := getCachedABI redisClient now contractAddress in
  let a := fetchFromMonadScan contractAddress in
  let b := fetchFromMonadExplorer contractAddress in
  (Js.truthy cached = true →
     r = {| fetched_abi := cached; fetched_client := redisClient;
            fetched_queried := [] |})
  ∧ (Js.truthy cached = false →
       fetched_queried r
       = MonadScan :: (if Js.truthy a then [] else [MonadExplorer])
       ∧ fetched_abi r = (if Js.truthy a then a else b)
       ∧ fetched_client r
         = if Js.truthy (fetched_abi r)
           then cacheABI redisClient now contractAddress (fetched_abi r)
           else redisClient)
  ∧ (∀ c, redisClient = Some c → Redis.online c = true →
       Js.truthy cached = false → Js.truthy (fetched_abi r) = true →
       ∃ c', fetched_client r = Some c'
             ∧ Redis.entries c' !! cacheKey contractAddress
               = Some (stringify (fetched_abi r), now + 86400))
  ∧ (redisClient = None → fetched_client r = None)
  ∧ (throws (monadScanGetAbi contractAddress) = true → a = Js.JNull)
  ∧ (∀ data,
       monadScanGetAbi contractAddress = Ok data →
       Js.prop data "result"
       = Ok (Some (Js.JStr "Contract source code not verified")) →
       a = Js.JNull)
  ∧ (∀ data text,
       monadScanGetAbi contractAddress = Ok data →
       Js.prop data "result" = Ok (Some (Js.JStr text)) →
       throws (parse text) = true →
       a = Js.JNull)
  ∧ (throws (monadExplorerGetAbi contractAddress) = true → b = Js.JNull)
  ∧ (fetched_abi r = Js.JNull ∨ Js.truthy (fetched_abi r) = true).
Proof.
  intros r cached a b.
  assert (Js.truthy cached = false →
          fetched_queried r
          = MonadScan :: (if Js.truthy a then [] else [MonadExplorer])
          ∧ fetched_abi r = (if Js.truthy a then a else b)
          ∧ fetched_client r
            = if Js.truthy (fetched_abi r)
              then cacheABI redisClient now contractAddress (fetched_abi r)
              else redisClient) as Hmiss.
  { intros Hc. subst r. unfold fetchABI. fold cached. rewrite Hc.
    fold a b. by destruct (Js.truthy a). }
  split_and!.
  - intros Hc. subst r. unfold fetchABI. fold cached. by rewrite Hc.
  - done.
  - intros c -> Ho Hc Ht. destruct (Hmiss Hc) as (_ & _ & ->).
    rewrite Ht, cacheABI_online by done.
    eexists; split; [done|]. cbn. apply lookup_insert_eq.
  - intros Hn. destruct (Js.truthy cached) eqn:Hc.
    + subst r. unfold fetchABI. fold cached. by rewrite Hc.
    + destruct (Hmiss eq_refl) as (_ & _ & ->). rewrite Hn.
      by destruct (Js.truthy (fetched_abi r)).
  - subst a. unfold fetchFromMonadScan.
    by destruct (monadScanGetAbi contractAddress).
  - intros data Hd Hr. subst a. unfold fetchFromMonadScan.
    rewrite Hd. cbn.
    destruct (Js.prop data "status") as [status|]; cbn; [|done].
    destruct (isString status "1"); [|done]. by rewrite Hr.
  - intros data text Hd Hr Hp. subst a. unfold fetchFromMonadScan.
    rewrite Hd. cbn.
    destruct (Js.prop data "status") as [status|]; cbn; [|done].
    destruct (isString status "1"); [|done]. rewrite Hr. cbn.
    destruct (String.eqb text _); cbn; [done|].
    by destruct (parse text).
  - subst b. unfold fetchFromMonadExplorer.
    by destruct (monadExplorerGetAbi contractAddress).
  - destruct (Js.truthy cached) eqn:Hc.
    + right. subst r. unfold fetchABI. fold cached. by rewrite Hc.
    + destruct (Hmiss eq_refl) as (_ & -> & _).
      destruct (Js.truthy a) eqn:Ha; [by right|].
      apply fetchFromMonadExplorer_absent_or_truthy.
Qed.

End Resolver.

Lemma fetchABI_resolution_witness :
  ∃ c',
    ABIFetcher.fetched_client
      (ABIFetcher.fetchABI (H := Reference.json)
         (H0 := CacheExamples.explorers) (Some CacheExamples.openClient)
         1000 CacheExamples.mixedCase) = Some c'
    ∧ Redis.entries c' !! ABIFetcher.cacheKey CacheExamples.lowerCase
      = Some ("[]", 87400).
Proof.
  destruct (fetchABI_resolution (H := Reference.json)
              (H0 := CacheExamples.explorers) (Some CacheExamples.openClient)
              1000 CacheExamples.mixedCase) as (_ & _ & Hcached & _).
  apply (Hcached CacheExamples.openClient); reflexivity.
Defined.

(** C6, as stated, fails when the fetcher has no Redis client: MonadScan's
    document is returned and nothing is cached, so the next call asks
    MonadScan again. *)
Lemma fetchABI_counterexample :
  let first := ABIFetcher.fetchABI (H := Reference.json)
                 (H0 := CacheExamples.explorers) None 1000
                 CacheExamples.lowerCase in
  let second := ABIFetcher.fetchABI (H := Reference.json)
                  (H0 := CacheExamples.explorers)
                  (ABIFetcher.fetched_client first) 1001
                  CacheExamples.lowerCase in
  ABIFetcher.fetched_abi first = Js.JArr []
  ∧ ABIFetcher.getCachedABI (H := Reference.json)
      (ABIFetcher.fetched_client first) 1001 CacheExamples.lowerCase
    = Js.JNull
  ∧ ABIFetcher.fetched_queried second = [ABIFetcher.MonadScan].
Proof. vm_compute. done. Qed.

(** * The analyze request *)

Section Controller.
Import Ethers DisputeController Requests.
Context `{Lib} `{Provider} `{AIService.Endpoint}.

Lemma disputeText_truthy body :
  (if Js.truthyOpt (disputeDescription body)
   then disputeDescription body else None) = disputeText body.
Proof.
  unfold disputeText, Js.truthyOpt.
  destruct (disputeDescription body) as [d|]; [|done].
  by destruct (Js.truthyString d).
Qed.

Lemma service_resolved hash contractAddress transaction receipt block :
  getTransaction hash = Ok (Some transaction) →
  getTransactionReceipt hash = Ok (Some receipt) →
  getBlock (rc_blockNumber receipt) = Ok block →
  BlockchainService.analyzeTransaction hash contractAddress
  = Ok (analysisOf hash contractAddress transaction receipt block).
Proof.
  intros Ht Hr Hb. unfold BlockchainService.analyzeTransaction.
  rewrite Ht. cbn. rewrite Hr. cbn. by rewrite Hb.
Qed.

Lemma service_ok_inv hash contractAddress analysis :
  BlockchainService.analyzeTransaction hash contractAddress = Ok analysis →
  ∃ transaction receipt block,
    getTransaction hash = Ok (Some transaction)
    ∧ getTransactionReceipt hash = Ok (Some receipt)
    ∧ getBlock (rc_blockNumber receipt) = Ok block
    ∧ analysis = analysisOf hash contractAddress transaction receipt block.
Proof.
  unfold BlockchainService.analyzeTransaction.
  destruct (getTransaction hash) as [[transaction|]|]; cbn; [|done..].
  destruct (getTransactionReceipt hash) as [[receipt|]|]; cbn; [|done..].
  destruct (getBlock (rc_blockNumber receipt)) as [block|] eqn:Hb;
    cbn; [|done].
  intros [= <-]. by exists transaction, receipt, block.
Qed.

Lemma analyzeDispute_message hash contractAddress description logs details :
  match AIService.analyzeDispute hash contractAddress description logs
          details with
  | Ok _ => True
  | Throw message => message = unavailable
  end.
Proof.
  unfold AIService.analyzeDispute.
  destruct (Js.truthyOpt AIService.apiKey); [|done]. cbn.
  destruct (AIService.post _ _ _ _ _) as [data|]; cbn; [|done].
  destruct data as [[[[|first rest]|]]|]; try done.
  by destruct (AIService.message first).
Qed.


(** The response to a request whose lookups have answered. *)
Lemma respond_resolved body hash transaction receipt block :
  resolved body hash transaction receipt block →
  let contractAddress := effectiveAddress body transaction in
  let analysis :=
    analysisOf hash contractAddress transaction receipt block in
  analyzeTransaction body
  = match disputeText body with
    | Some description =>
        match adjudicate hash contractAddress description analysis with
        | Ok aiAnalysis =>
            sent (okResponse body hash contractAddress analysis aiAnalysis)
        | Throw _ => {| status := 503; payload := Failure unavailable |}
        end
    | None => sent (okResponse body hash contractAddress analysis None)
    end.
Proof.
  intros (Hh & Hne & Ht & Hr & Hb) ca analysis.
  assert (match analyzeAndRespond hash ca (disputeDescription body) with
          | Ok response => response
          | Throw message => handleError message
          end
          = match disputeText body with
            | Some description =>
                match adjudicate hash ca description analysis with
                | Ok aiAnalysis =>
                    sent (okResponse body hash ca analysis aiAnalysis)
                | Throw _ =>
                    {| status := 503; payload := Failure unavailable |}
                end
            | None => sent (okResponse body hash ca analysis None)
            end) as Hrespond.
  { unfold analyzeAndRespond.
    rewrite (service_resolved hash ca transaction receipt block Ht Hr Hb).
    fold analysis. rewrite (disputeText_truthy body).
    unfold sent, okResponse, adjudicate, disputeText.
    cbn [mbind Result_bind].
    destruct (disputeDescription body) as [d|]; [|done].
    destruct (Js.truthyString d); [|done].
    pose proof (analyzeDispute_message hash ca d
                  (BlockchainService.ta_events analysis)
                  (BlockchainService.ta_transaction analysis)) as Hm.
    destruct (AIService.analyzeDispute _ _ _ _ _) as [ai|m]; [done|].
    by rewrite Hm. }
  unfold analyzeTransaction. rewrite Hh, Hne. cbn [negb].
  subst ca. unfold effectiveAddress in *.
  destruct (Js.truthyOpt (contractAddress body)); [done|].
  by rewrite Ht.
Qed.

(** A body without [decimals] is sent as it is; one with [decimals] makes
    [res.json] throw, and the [catch] answers 500. *)
Lemma sent_okResponse body hash contractAddress analysis aiAnalysis :
  sent (okResponse body hash contractAddress analysis aiAnalysis)
  = match BlockchainService.info_decimals
            (BlockchainService.contractInfo
               (BlockchainService.ta_contractState analysis)) with
    | Some _ =>
        {| status := 500; payload := Failure "Internal server error" |}
    | None => okResponse body hash contractAddress analysis aiAnalysis
    end.
Proof.
  unfold sent, json, okResponse. cbn.
  by destruct (BlockchainService.info_decimals _).
Qed.



(** C10.  [analyzeDispute] throws with one message only, "AI service
    temporarily unavailable": when the key is not configured, when the
    call to the endpoint throws, and when the reply has no first choice.
    The controller answers a request whose adjudication failed with
    status 503 and that message, so the response is the same for every
    cause of the failure. *)
Theorem ai_failure_single_message :
  (∀ hash contractAddress description logs details,
     match AIService.analyzeDispute hash contractAddress description logs
             details with
     | Ok _ => True
     | Throw message => message = unavailable
     end)
  ∧ (∀ hash contractAddress description logs details,
       Js.truthyOpt AIService.apiKey = false →
       AIService.analyzeDispute hash contractAddress description logs details
       = Throw unavailable)
  ∧ (∀ hash contractAddress description logs details,
       throws (AIService.post hash contractAddress description logs details)
       = true →
       AIService.analyzeDispute hash contractAddress description logs details
       = Throw unavailable)
  ∧ (∀ hash contractAddress description logs details data,
       AIService.post hash contractAddress description logs details = Ok data →
       firstChoice data = None →
       AIService.analyzeDispute hash contractAddress description logs details
       = Throw unavailable)
  ∧ (∀ body hash transaction receipt block description,
       resolved body hash transaction receipt block →
       disputeText body = Some description →
       throws
         (adjudicate hash (effectiveAddress body transaction) description
            (analysisOf hash (effectiveAddress body transaction)
               transaction receipt block)) = true →
       analyzeTransaction body
       = {| status := 503; payload := Failure unavailable |}).
Proof.
  split_and!.
  - apply analyzeDispute_message.
  - intros * Hk. unfold AIService.analyzeDispute. by rewrite Hk.
  - intros * Hp. unfold AIService.analyzeDispute.
    destruct (Js.truthyOpt AIService.apiKey); [|done]. cbn.
    by destruct (AIService.post _ _ _ _ _).
  - intros hash ca description logs details reply Hp Hc.
    unfold AIService.analyzeDispute.
    destruct (Js.truthyOpt AIService.apiKey); [|done]. cbn.
    rewrite Hp. cbn. unfold firstChoice in Hc.
    by destruct reply as [[[[|first rest]|]]|].
  - intros * Hres Hd Hai.
    rewrite (respond_resolved body hash transaction receipt block Hres), Hd.
    by destruct (adjudicate _ _ _ _).
Qed.

End Controller.



Lemma ai_failure_single_message_witness :
  @DisputeController.analyzeTransaction Reference.lib
    RequestExamples.healthyNode RequestExamples.noKey
    RequestExamples.disputeRequest
  = {| DisputeController.status := 503;
       DisputeController.payload :=
         DisputeController.Failure "AI service temporarily unavailable" |}.
Proof.
  destruct (@ai_failure_single_message Reference.lib
              RequestExamples.healthyNode RequestExamples.noKey)
    as (_ & _ & _ & _ & Hc).
  apply (Hc RequestExamples.disputeRequest RequestExamples.hash0
           RequestExamples.transaction0 RequestExamples.receipt0
           (Some {| Ethers.timestamp := 1700000000 |})
           "tokens never arrived");
    [repeat split; reflexivity|reflexivity..].
Defined.

(** * Further properties of the standard classifier *)

Section SetLemmas.
Context {A : Type} `{EqDecision A}.

Lemma elem_of_setAdd (x y : A) (s : list A) :
  x ∈ Js.setAdd y s ↔ x = y ∨ x ∈ s.
Proof.
  unfold Js.setAdd. destruct (decide (y ∈ s)) as [Hy|Hy].
  - split; [by right|]. intros [->|?]; done.
  - rewrite elem_of_app, list_elem_of_singleton. tauto.
Qed.

Lemma NoDup_setAdd (y : A) (s : list A) : NoDup s → NoDup (Js.setAdd y s).
Proof.
  intros Hs. unfold Js.setAdd. destruct (decide (y ∈ s)) as [Hy|Hy]; [done|].
  apply NoDup_app. split_and!; [done| |apply NoDup_singleton].
  intros x Hx ->%list_elem_of_singleton. done.
Qed.

Lemma length_setAdd (y : A) (s : list A) :
  (length (Js.setAdd y s) ≤ S (length s))%nat.
Proof.
  unfold Js.setAdd. destruct (decide (y ∈ s)); [lia|].
  rewrite length_app. cbn. lia.
Qed.

Lemma foldl_setAdd_elem (l : list A) : ∀ s x,
  x ∈ foldl (λ s x, Js.setAdd x s) s l ↔ x ∈ s ∨ x ∈ l.
Proof.
  induction l as [|y l IH]; intros s x; cbn.
  - rewrite elem_of_nil. tauto.
  - rewrite IH, elem_of_setAdd, elem_of_cons. tauto.
Qed.

Lemma foldl_setAdd_NoDup (l : list A) : ∀ s,
  NoDup s → NoDup (foldl (λ s x, Js.setAdd x s) s l).
Proof.
  induction l as [|y l IH]; intros s Hs; cbn; [done|].
  by apply IH, NoDup_setAdd.
Qed.

Lemma foldl_setAdd_length (l : list A) : ∀ s,
  (length (foldl (λ s x, Js.setAdd x s) s l) ≤ length s + length l)%nat.
Proof.
  induction l as [|y l IH]; intros s; cbn; [lia|].
  pose proof (IH (Js.setAdd y s)). pose proof (length_setAdd y s). lia.
Qed.

End SetLemmas.

Section LogOrderProofs.
Import Ethers BlockchainService Classifier LogOrder.
Context `{Lib}.

Lemma step_buckets pl log :
  transfers (step pl log) = transfers pl ++ option_list (transferOf log)
  ∧ deposits (step pl log) = deposits pl ++ option_list (depositOf log)
  ∧ otherEvents (step pl log) = otherEvents pl ++ option_list (otherOf log).
Proof.
  rewrite step_by_cases. unfold transferOf, depositOf, otherOf, unmatched.
  destruct (decodeERC20 log) as [[]|]; cbn.
  - by rewrite !app_nil_r.
  - by rewrite !app_nil_r.
  - destruct (decodeERC721 log) as [[]|]; cbn.
    + by rewrite !app_nil_r.
    + destruct (extractAddresses_buckets (drop 1 (topics log)) 1 pl)
        as (-> & -> & -> & _).
      by rewrite !app_nil_r.
Qed.

Lemma omap_cons_option_list {A B} (f : A → option B) x l :
  omap f (x :: l) = option_list (f x) ++ omap f l.
Proof. cbn. by destruct (f x). Qed.

Lemma foldl_step_buckets logs : ∀ pl,
  transfers (foldl step pl logs) = transfers pl ++ omap transferOf logs
  ∧ deposits (foldl step pl logs) = deposits pl ++ omap depositOf logs
  ∧ otherEvents (foldl step pl logs) = otherEvents pl ++ omap otherOf logs.
Proof.
  induction logs as [|log logs IH]; intros pl.
  - cbn. by rewrite !app_nil_r.
  - cbn [foldl]. destruct (IH (step pl log)) as (-> & -> & ->).
    destruct (step_buckets pl log) as (-> & -> & ->).
    by rewrite !omap_cons_option_list, <- !(assoc_L (++)).
Qed.

Lemma step_addresses pl log :
  senderAddresses (step pl log)
  = match senderOf log with
    | Some x => Js.setAdd x (senderAddresses pl)
    | None => senderAddresses pl
    end
  ∧ receiverAddresses (step pl log)
    = match receiverOf log with
      | Some x => Js.setAdd x (receiverAddresses pl)
      | None => receiverAddresses pl
      end.
Proof.
  rewrite step_by_cases. unfold senderOf, receiverOf.
  destruct (decodeERC20 log) as [[]|]; [done..|].
  destruct (decodeERC721 log) as [[]|]; [done|].
  unfold unknownEvent. rewrite extractAddresses_from_1. cbn.
  rewrite !lookup_drop. cbn.
  by destruct (topics log !! 1%nat ≫= topicAddress),
    (topics log !! 2%nat ≫= topicAddress).
Qed.

Lemma foldl_step_addresses logs : ∀ pl,
  senderAddresses (foldl step pl logs)
  = foldl (λ s x, Js.setAdd x s) (senderAddresses pl) (omap senderOf logs)
  ∧ receiverAddresses (foldl step pl logs)
    = foldl (λ s x, Js.setAdd x s) (receiverAddresses pl)
        (omap receiverOf logs).
Proof.
  induction logs as [|log logs IH]; intros pl; [done|].
  cbn [foldl]. destruct (IH (step pl log)) as (-> & ->).
  destruct (step_addresses pl log) as (-> & ->). cbn.
  by destruct (senderOf log), (receiverOf log).
Qed.

(** X1.  Each bucket lists the records of the logs in the order of the logs:
    it is the sequence of the records the single logs give. *)
Theorem buckets_follow_log_order logs contractAddress :
  transfers (parseLogs logs contractAddress) = omap transferOf logs
  ∧ deposits (parseLogs logs contractAddress) = omap depositOf logs
  ∧ otherEvents (parseLogs logs contractAddress) = omap otherOf logs.
Proof. unfold parseLogs. apply (foldl_step_buckets logs emptyParsedLogs). Qed.

(** X2.  Parsing two sequences one after the other: the buckets of the whole
    are the buckets of the first part followed by those of the second,
    and the contract type is the one of the second part unless none of
    its logs matches a schema, in which case it is the one of the first
    part. *)
Theorem parseLogs_app logs1 logs2 contractAddress :
  let whole := parseLogs (logs1 ++ logs2) contractAddress in
  let first := parseLogs logs1 contractAddress in
  let second := parseLogs logs2 contractAddress in
  transfers whole = transfers first ++ transfers second
  ∧ deposits whole = deposits first ++ deposits second
  ∧ otherEvents whole = otherEvents first ++ otherEvents second
  ∧ contractType whole
    = match last (omap typeWrittenBy logs2) with
      | Some _ => contractType second
      | None => contractType first
      end.
Proof.
  cbn zeta. unfold parseLogs. rewrite foldl_app.
  destruct (foldl_step_buckets logs2 (foldl step emptyParsedLogs logs1))
    as (-> & -> & ->).
  destruct (foldl_step_buckets logs2 emptyParsedLogs) as (-> & -> & ->).
  split_and!; [done..|].
  rewrite !contractType_foldl.
  by destruct (last (omap typeWrittenBy logs2)).
Qed.

(** X3.  The two address lists are the senders and the receivers of the logs
    in the order of their first occurrence, and hold no value twice. *)
Theorem addresses_first_occurrences logs contractAddress :
  senderAddresses (parseLogs logs contractAddress)
  = firstOccurrences (omap senderOf logs)
  ∧ receiverAddresses (parseLogs logs contractAddress)
    = firstOccurrences (omap receiverOf logs)
  ∧ NoDup (senderAddresses (parseLogs logs contractAddress))
  ∧ NoDup (receiverAddresses (parseLogs logs contractAddress)).
Proof.
  unfold parseLogs, firstOccurrences.
  destruct (foldl_step_addresses logs emptyParsedLogs) as (-> & ->). cbn.
  split_and!; [done..| |]; apply foldl_setAdd_NoDup, NoDup_nil_2.
Qed.

Lemma transferOf_addresses log r :
  transferOf log = Some r →
  senderOf log = Some (tr_from r) ∧ receiverOf log = Some (tr_to r).
Proof.
  unfold transferOf, senderOf, receiverOf.
  destruct (decodeERC20 log) as [[]|]; [by intros [= <-]|done|].
  destruct (decodeERC721 log) as [[]|]; [by intros [= <-]|done].
Qed.

Lemma depositOf_sender log r :
  depositOf log = Some r → senderOf log = Some (dep_from r).
Proof.
  unfold depositOf, senderOf.
  destruct (decodeERC20 log) as [[]|]; [done|by intros [= <-]|done].
Qed.

(** X4.  The parties of every record are in the address lists: the sender and
    the receiver of a transfer, and the sender of a deposit. *)
Theorem record_parties_are_listed logs contractAddress :
  let r := parseLogs logs contractAddress in
  (∀ t, t ∈ transfers r →
        tr_from t ∈ senderAddresses r ∧ tr_to t ∈ receiverAddresses r)
  ∧ (∀ d, d ∈ deposits r → dep_from d ∈ senderAddresses r).
Proof.
  cbn zeta. unfold parseLogs.
  destruct (foldl_step_buckets logs emptyParsedLogs) as (-> & -> & _).
  destruct (foldl_step_addresses logs emptyParsedLogs) as (-> & ->). cbn.
  split.
  - intros t (log & Hlog & Ht)%list_elem_of_omap.
    destruct (transferOf_addresses log t Ht) as (Hs & Hr).
    rewrite !foldl_setAdd_elem. split; right; apply list_elem_of_omap; eauto.
  - intros d (log & Hlog & Hd)%list_elem_of_omap.
    rewrite foldl_setAdd_elem. right. apply list_elem_of_omap.
    eauto using depositOf_sender.
Qed.

(** X5.  There are at most as many senders, and as many receivers, as logs. *)
Theorem address_counts_bounded logs contractAddress :
  (length (senderAddresses (parseLogs logs contractAddress)) ≤ length logs)%nat
  ∧ (length (receiverAddresses (parseLogs logs contractAddress))
     ≤ length logs)%nat.
Proof.
  unfold parseLogs.
  destruct (foldl_step_addresses logs emptyParsedLogs) as (-> & ->). cbn.
  split.
  - pose proof (foldl_setAdd_length (omap senderOf logs) []) as Hl.
    pose proof (omap_length_le senderOf logs). cbn in Hl. lia.
  - pose proof (foldl_setAdd_length (omap receiverOf logs) []) as Hl.
    pose proof (omap_length_le receiverOf logs). cbn in Hl. lia.
Qed.

End LogOrderProofs.

(** * Further properties of the analysis and of the controller *)

Section AnalysisProofs.
Import Ethers BlockchainService.

Lemma pattern_fields transaction receipt parsedLogs :
  let a := analyzeTransactionPattern transaction receipt parsedLogs in
  an_success a = statusIsOne receipt
  ∧ an_hasTransfers a = (0 <? length (transfers parsedLogs))%nat
  ∧ an_contractType a = contractType parsedLogs
  ∧ an_totalEvents a
    = (length (transfers parsedLogs) + length (deposits parsedLogs)
       + length (otherEvents parsedLogs))%nat
  ∧ (an_type a = "transfer" ↔ (0 <? length (transfers parsedLogs))%nat = true).
Proof.
  cbn zeta. unfold analyzeTransactionPattern.
  destruct (0 <? length (transfers parsedLogs))%nat; [done|].
  destruct (0 <? length (deposits parsedLogs))%nat; [done|].
  destruct (Js.truthyString (tx_data transaction) && _); [done|].
  by destruct (0 <? tx_value transaction).
Qed.

Context `{Lib} `{Provider}.

(** X7.  Every analysis the service returns counts one event per log of the
    receipt, reports "success" exactly when its success flag is set, has
    the type "transfer" exactly when it has transfers, and echoes the
    contract type of its events. *)
Theorem analysis_is_consistent hash contractAddress analysis :
  analyzeTransaction hash contractAddress = Ok analysis →
  ∃ receipt,
    getTransactionReceipt hash = Ok (Some receipt)
    ∧ an_totalEvents (ta_analysis analysis) = length (rc_logs receipt)
    ∧ (td_status (ta_transaction analysis) = "success"
       ↔ an_success (ta_analysis analysis) = true)
    ∧ (an_type (ta_analysis analysis) = "transfer"
       ↔ an_hasTransfers (ta_analysis analysis) = true)
    ∧ an_contractType (ta_analysis analysis)
      = contractType (ta_events analysis).
Proof.
  intros Ha.
  destruct (service_ok_inv hash contractAddress analysis Ha)
    as (transaction & receipt & block & _ & Hr & _ & ->).
  exists receipt. split; [done|]. unfold Requests.analysisOf. cbn.
  destruct (pattern_fields transaction receipt
              (parseLogs (rc_logs receipt) contractAddress))
    as (-> & -> & -> & -> & Ht).
  split_and!; [|by destruct (statusIsOne receipt)|done|done].
  pose proof (foldl_step_size (rc_logs receipt) emptyParsedLogs) as Hsize.
  unfold StandardCoverage.categorySize in Hsize. by cbn in Hsize.
Qed.

End AnalysisProofs.

Lemma analysis_is_consistent_witness :
  ∃ receipt,
    @Ethers.getTransactionReceipt RequestExamples.healthyNode
      RequestExamples.hash0 = Ok (Some receipt)
    ∧ BlockchainService.an_totalEvents
        (BlockchainService.ta_analysis
           (Requests.analysisOf (H := Reference.lib)
              (H0 := RequestExamples.healthyNode) RequestExamples.hash0
              (Some Examples.addrB) RequestExamples.transaction0
              RequestExamples.receipt0
              (Some {| Ethers.timestamp := 1700000000 |})))
      = length (Ethers.rc_logs receipt).
Proof.
  destruct (@analysis_is_consistent Reference.lib RequestExamples.healthyNode
              RequestExamples.hash0 (Some Examples.addrB)
              (Requests.analysisOf (H := Reference.lib)
                 (H0 := RequestExamples.healthyNode) RequestExamples.hash0
                 (Some Examples.addrB) RequestExamples.transaction0
                 RequestExamples.receipt0
                 (Some {| Ethers.timestamp := 1700000000 |})) eq_refl)
    as (receipt & Hr & Hn & _).
  by exists receipt.
Defined.

Section ContractStateProofs.
Import Ethers BlockchainService.
Context `{Provider}.

(** X8.  For an address that is not a token contract (every one of the four
    calls throws), and for an address the contract cannot be built for,
    the state is the empty one: no balance and no contract information;
    nothing is thrown. *)
Theorem contract_state_degrades contractAddress sender :
  (∀ c, newContract contractAddress ERC20_ABI = Ok c →
        throws (balanceOf c sender) = true
        ∧ throws (symbol c) = true
        ∧ throws (tokenName c) = true
        ∧ throws (decimals c) = true) →
  getContractState contractAddress sender = emptyContractState.
Proof.
  intros Hc. unfold getContractState.
  destruct (newContract contractAddress ERC20_ABI) as [c|]; [|done].
  destruct (Hc c eq_refl) as (Hb & Hs & Hn & Hd).
  destruct (balanceOf c sender); [done|].
  destruct (symbol c); [done|].
  destruct (tokenName c); [done|].
  destruct (decimals c); [done|].
  cbn. by destruct (Js.truthyString sender).
Qed.

End ContractStateProofs.

Lemma contract_state_degrades_witness :
  @BlockchainService.getContractState RequestExamples.healthyNode
    (Some Examples.addrB) Examples.addrA
  = BlockchainService.emptyContractState.
Proof.
  apply (@contract_state_degrades RequestExamples.healthyNode).
  intros c _. repeat split; reflexivity.
Defined.

Section ControllerProofs.
Import Ethers DisputeController Requests.
Context `{Lib} `{Provider} `{AIService.Endpoint}.

(** X12.  [analyzeDispute] returns exactly when the key is configured, the
    endpoint answers, and the answer has a first choice with a message;
    it then returns the content of that message. *)
Theorem analyzeDispute_returns hash contractAddress description logs details
    answer :
  AIService.analyzeDispute hash contractAddress description logs details
  = Ok answer
  ↔ Js.truthyOpt AIService.apiKey = true
    ∧ ∃ reply first m,
        AIService.post hash contractAddress description logs details = Ok reply
        ∧ firstChoice reply = Some first
        ∧ AIService.message first = Some m
        ∧ answer = AIService.content m.
Proof.
  split.
  - intros Hok. unfold AIService.analyzeDispute in Hok.
    destruct (Js.truthyOpt AIService.apiKey) eqn:Hk; [|done]. cbn in Hok.
    destruct (AIService.post hash contractAddress description logs details)
      as [reply|] eqn:Hp; cbn in Hok; [|done].
    destruct reply as [[[[|first rest]|]]|]; cbn in Hok; try done.
    destruct (AIService.message first) as [m|] eqn:Hm; cbn in Hok; [|done].
    injection Hok as <-. split; [done|]. by eexists _, first, m.
  - intros (Hk & reply & first & m & Hp & Hf & Hm & ->).
    unfold AIService.analyzeDispute. rewrite Hk, Hp. cbn.
    destruct reply as [[[[|first' rest]|]]|]; cbn in Hf; try done.
    injection Hf as ->. cbn. by rewrite Hm.
Qed.

(** X9.  A request for a transaction the node does not have is answered with
    status 404 and "Transaction not found", whether or not the request
    names a contract address. *)
Theorem transaction_not_found_is_404 body hash :
  txHash body = Some hash →
  Js.truthyString hash = true →
  getTransaction hash = Ok None →
  analyzeTransaction body
  = {| status := 404; payload := Failure "Transaction not found" |}.
Proof.
  intros Hh Hne Ht. unfold analyzeTransaction. rewrite Hh, Hne. cbn.
  destruct (Js.truthyOpt (contractAddress body)).
  - unfold analyzeAndRespond, BlockchainService.analyzeTransaction.
    by rewrite Ht.
  - by rewrite Ht.
Qed.

(** X10.  A request for a transaction that has no receipt is answered with
    status 500 and "Internal server error", not with 404: the message
    "Transaction receipt not found" does not contain "Transaction not
    found". *)
Theorem receipt_not_found_is_500 body hash transaction :
  txHash body = Some hash →
  Js.truthyString hash = true →
  getTransaction hash = Ok (Some transaction) →
  getTransactionReceipt hash = Ok None →
  analyzeTransaction body
  = {| status := 500; payload := Failure "Internal server error" |}.
Proof.
  intros Hh Hne Ht Hr. unfold analyzeTransaction. rewrite Hh, Hne. cbn.
  assert (∀ ca,
            match analyzeAndRespond hash ca (disputeDescription body) with
            | Ok response => response
            | Throw message => handleError message
            end
            = {| status := 500; payload := Failure "Internal server error" |})
    as Hrespond.
  { intros ca. unfold analyzeAndRespond, BlockchainService.analyzeTransaction.
    rewrite Ht. cbn. by rewrite Hr. }
  destruct (Js.truthyOpt (contractAddress body)); [done|].
  by rewrite Ht.
Qed.

(** [res.json] sends the response it is given, or throws. *)
Lemma json_ok r response : json r = Ok response → response = r.
Proof.
  unfold json. destruct (payload r) as [|data]; [by intros [= <-]|].
  destruct (BlockchainService.info_decimals _); [done|]. by intros [= <-].
Qed.

(** X27.  A request whose lookups have answered and whose dispute, if one
    is given, is adjudicated is answered with status 500 and "Internal
    server error" when the [decimals()] of its contract returns: the
    number is a [BigInt], which [res.json] does not print, and the
    [catch] of the controller answers. *)
Theorem token_decimals_is_500 body hash transaction receipt block
    erc20Contract n :
  resolved body hash transaction receipt block →
  newContract (effectiveAddress body transaction) BlockchainService.ERC20_ABI
  = Ok erc20Contract →
  decimals erc20Contract = Ok n →
  match disputeText body with
  | Some description =>
      throws
        (adjudicate hash (effectiveAddress body transaction) description
           (analysisOf hash (effectiveAddress body transaction)
              transaction receipt block)) = false
  | None => True
  end →
  analyzeTransaction body
  = {| status := 500; payload := Failure "Internal server error" |}.
Proof.
  intros Hres Hc Hd Hai.
  rewrite (respond_resolved body hash transaction receipt block Hres).
  assert (∀ aiAnalysis,
            sent (okResponse body hash (effectiveAddress body transaction)
                    (analysisOf hash (effectiveAddress body transaction)
                       transaction receipt block) aiAnalysis)
            = {| status := 500; payload := Failure "Internal server error" |})
    as Hsent.
  { intros aiAnalysis. rewrite sent_okResponse. cbn.
    unfold BlockchainService.getContractState. by rewrite Hc, Hd. }
  destruct (disputeText body) as [d|]; [|apply Hsent].
  destruct (adjudicate _ _ _ _); [apply Hsent|done].
Qed.

Lemma analyzeAndRespond_ok hash contractAddress description response :
  analyzeAndRespond hash contractAddress description = Ok response →
  status response = 200 ∧ success response = true.
Proof.
  unfold analyzeAndRespond.
  destruct (BlockchainService.analyzeTransaction _ _) as [analysis|];
    cbn [mbind Result_bind]; [|done].
  destruct description as [d|].
  - destruct (Js.truthyString d).
    + destruct (AIService.analyzeDispute _ _ _ _ _);
        cbn [mbind Result_bind]; [|done].
      by intros ->%json_ok.
    + by intros ->%json_ok.
  - by intros ->%json_ok.
Qed.

Lemma handleError_status message :
  (status (handleError message) = 404
   ∨ status (handleError message) = 503
   ∨ status (handleError message) = 500)
  ∧ success (handleError message) = false.
Proof.
  unfold handleError.
  destruct (Js.includes message "Transaction not found"); [by auto|].
  destruct (Js.includes message "AI service"); by auto.
Qed.

(** X11.  The status of every response the controller's [analyzeTransaction]
    sends is one of 200, 400, 404, 500 and 503, and it is 200 exactly when
    the body says "success". *)
Theorem status_matches_payload body :
  let response := analyzeTransaction body in
  status response ∈ [200; 400; 404; 500; 503]
  ∧ (status response = 200 ↔ success response = true).
Proof.
  cbn zeta.
  assert (∀ r : Response,
            (status r = 200 ∧ success r = true)
            ∨ ((status r = 400 ∨ status r = 404 ∨ status r = 500
                ∨ status r = 503) ∧ success r = false) →
            status r ∈ [200; 400; 404; 500; 503]
            ∧ (status r = 200 ↔ success r = true)) as Hshape.
  { intros r [(Hs & Hp)|(Hs & Hp)]; rewrite Hp.
    - rewrite Hs. split; [set_solver|done].
    - split; [destruct Hs as [-> | [-> | [-> | ->]]]; set_solver|].
      split; [|done]. intros Hs'. rewrite Hs' in Hs.
      by destruct Hs as [? | [? | [? | ?]]]. }
  apply Hshape. unfold analyzeTransaction.
  destruct (txHash body) as [hash|]; [|right; cbn; auto].
  destruct (Js.truthyString hash); cbn; [|right; cbn; auto].
  assert (∀ ca,
            let r := match analyzeAndRespond hash ca (disputeDescription body)
                     with
                     | Ok response => response
                     | Throw message => handleError message
                     end in
            (status r = 200 ∧ success r = true)
            ∨ ((status r = 400 ∨ status r = 404 ∨ status r = 500
                ∨ status r = 503) ∧ success r = false)) as Hrespond.
  { intros ca. cbn zeta.
    destruct (analyzeAndRespond hash ca (disputeDescription body))
      as [response|message] eqn:Hr.
    - left. by apply (analyzeAndRespond_ok hash ca (disputeDescription body)).
    - right. destruct (handleError_status message) as ([-> | [-> | ->]] & ->);
        auto. }
  destruct (Js.truthyOpt (contractAddress body)); [apply Hrespond|].
  destruct (getTransaction hash) as [[transaction|]|];
    [apply Hrespond|right; cbn; auto..].
Qed.

End ControllerProofs.

Lemma transaction_not_found_is_404_witness :
  @DisputeController.analyzeTransaction Reference.lib
    MoreExamples.nodeWithoutTransaction RequestExamples.noKey
    RequestExamples.disputeRequest
  = {| DisputeController.status := 404;
       DisputeController.payload :=
         DisputeController.Failure "Transaction not found" |}.
Proof.
  apply (@transaction_not_found_is_404 Reference.lib
           MoreExamples.nodeWithoutTransaction RequestExamples.noKey
           RequestExamples.disputeRequest RequestExamples.hash0);
    reflexivity.
Defined.

Lemma token_decimals_is_500_witness :
  @DisputeController.analyzeTransaction Reference.lib
    MoreExamples.tokenNode RequestExamples.noKey
    RequestExamples.plainRequest
  = {| DisputeController.status := 500;
       DisputeController.payload :=
         DisputeController.Failure "Internal server error" |}.
Proof.
  apply (@token_decimals_is_500 Reference.lib
           MoreExamples.tokenNode RequestExamples.noKey
           RequestExamples.plainRequest RequestExamples.hash0
           RequestExamples.transaction0 RequestExamples.receipt0
           (Some {| Ethers.timestamp := 1700000000 |})
           Examples.addrB 18);
    [repeat split; reflexivity|reflexivity..|exact I].
Defined.

Lemma receipt_not_found_is_500_witness :
  @DisputeController.analyzeTransaction Reference.lib
    MoreExamples.nodeWithoutReceipt RequestExamples.noKey
    RequestExamples.plainRequest
  = {| DisputeController.status := 500;
       DisputeController.payload :=
         DisputeController.Failure "Internal server error" |}.
Proof.
  apply (@receipt_not_found_is_500 Reference.lib
           MoreExamples.nodeWithoutReceipt RequestExamples.noKey
           RequestExamples.plainRequest RequestExamples.hash0
           RequestExamples.transaction0);
    reflexivity.
Defined.

(** * Further properties of the caches *)

Section CacheProofs.
Import ABIFetcher.
Context `{JSON}.

Lemma cacheKey_inj a b :
  cacheKey a = cacheKey b → Js.toLowerCase a = Js.toLowerCase b.
Proof. unfold cacheKey. intros Hk. cbn in Hk. by simplify_eq. Qed.

(** What a lookup finds in a client that holds [text] under the key until
    [expiry]. *)
Lemma getCachedABI_entry c later contractAddress text expiry :
  Redis.online c = true →
  Redis.entries c !! cacheKey contractAddress = Some (text, expiry) →
  text ≠ "" →
  getCachedABI (Some c) later contractAddress
  = if later <? expiry then
      match parse text with
      | Ok abi => abi
      | Throw _ => Js.JNull
      end
    else Js.JNull.
Proof.
  intros Ho He Hne. unfold getCachedABI, Redis.get. rewrite Ho, He. cbn.
  destruct (later <?  expiry); [|done].
  unfold Js.truthyString. by destruct (String.eqb_spec text "").
Qed.

(** X14.  Storing the ABI of one address leaves the lookups of every other
    address as they were (addresses compared without case). *)
Theorem cache_other_address redisClient now later a b abi :
  Js.toLowerCase a ≠ Js.toLowerCase b →
  getCachedABI (cacheABI redisClient now a abi) later b
  = getCachedABI redisClient later b.
Proof.
  intros Hab. destruct redisClient as [c|]; [|done].
  unfold cacheABI, Redis.setEx.
  destruct (Redis.online c) eqn:Ho; [|done].
  unfold getCachedABI, Redis.get. cbn. rewrite Ho.
  rewrite lookup_insert_ne; [done|].
  intros Hk. by apply Hab, cacheKey_inj.
Qed.

(** X15.  Storing twice for one address: the lookup returns the second
    document, and the 24 hours run from the second store. *)
Theorem cache_last_write_wins c t1 t2 later a1 a2 a3 abi1 abi2 :
  Redis.online c = true →
  Js.toLowerCase a1 = Js.toLowerCase a2 →
  Js.toLowerCase a2 = Js.toLowerCase a3 →
  parse (stringify abi2) = Ok abi2 →
  stringify abi2 ≠ "" →
  getCachedABI (cacheABI (cacheABI (Some c) t1 a1 abi1) t2 a2 abi2) later a3
  = if later <? t2 + 86400 then abi2 else Js.JNull.
Proof.
  intros Ho H12 H23 Hp Hne.
  rewrite (cacheABI_online c) by done.
  rewrite cacheABI_online by done.
  rewrite (getCachedABI_entry _ later a3 (stringify abi2) (t2 + 86400));
    [by rewrite Hp|done| |done].
  cbn. rewrite <- (cacheKey_casing a2 a3 H23). apply lookup_insert_eq.
Qed.

End CacheProofs.

Lemma cache_other_address_witness :
  ABIFetcher.getCachedABI (H := Reference.json)
    (ABIFetcher.cacheABI (H := Reference.json)
       (Some CacheExamples.openClient) 1000 Examples.addrA (Js.JArr []))
    1000 Examples.addrB
  = Js.JNull.
Proof.
  rewrite (cache_other_address (H := Reference.json)
             (Some CacheExamples.openClient) 1000 1000
             Examples.addrA Examples.addrB (Js.JArr []));
    [reflexivity|discriminate].
Defined.

Lemma cache_last_write_wins_witness :
  ABIFetcher.getCachedABI (H := Reference.json)
    (ABIFetcher.cacheABI (H := Reference.json)
       (ABIFetcher.cacheABI (H := Reference.json)
          (Some CacheExamples.openClient) 1000 CacheExamples.mixedCase
          Js.JNull)
       50000 CacheExamples.lowerCase (Js.JArr []))
    90000 CacheExamples.mixedCase
  = Js.JArr [].
Proof.
  apply (cache_last_write_wins (H := Reference.json) CacheExamples.openClient
           1000 50000 90000 CacheExamples.mixedCase CacheExamples.lowerCase
           CacheExamples.mixedCase Js.JNull (Js.JArr []));
    [reflexivity..|discriminate].
Defined.

Section MemoProofs.
Import ABIFetcher.
Context `{JSON} `{Explorers}.

(** X16.  After a miss that found a document and stored it through an open
    client, the next resolution of the same address (in any casing)
    within 24 hours is a hit: it returns that document and calls no
    explorer. *)
Theorem fetchABI_memoizes c now later a1 a2 :
  Redis.online c = true →
  Js.truthy (getCachedABI (Some c) now a1) = false →
  let r := fetchABI (Some c) now a1 in
  Js.truthy (fetched_abi r) = true →
  parse (stringify (fetched_abi r)) = Ok (fetched_abi r) →
  stringify (fetched_abi r) ≠ "" →
  Js.toLowerCase a1 = Js.toLowerCase a2 →
  later < now + 86400 →
  fetchABI (fetched_client r) later a2
  = {| fetched_abi := fetched_abi r; fetched_client := fetched_client r;
       fetched_queried := [] |}.
Proof.
  intros Ho Hmiss r Ht Hp Hne Hcase Hlater.
  assert (fetched_client r = cacheABI (Some c) now a1 (fetched_abi r)) as Hc.
  { subst r. unfold fetchABI in *. rewrite Hmiss in *.
    destruct (negb (Js.truthy (fetchFromMonadScan a1))); cbn in *;
      by rewrite Ht. }
  assert (getCachedABI (fetched_client r) later a2 = fetched_abi r) as Hhit.
  { rewrite Hc, cacheABI_online by done.
    rewrite (getCachedABI_entry _ later a2 (stringify (fetched_abi r))
               (now + 86400)); [|done| |done].
    - destruct (Z.ltb_spec later (now + 86400)); [by rewrite Hp|lia].
    - cbn. rewrite (cacheKey_casing a1 a2 Hcase). apply lookup_insert_eq. }
  unfold fetchABI at 1. by rewrite Hhit, Ht.
Qed.

End MemoProofs.

Lemma fetchABI_memoizes_witness :
  ABIFetcher.fetched_queried
    (ABIFetcher.fetchABI (H := Reference.json) (H0 := CacheExamples.explorers)
       (ABIFetcher.fetched_client
          (ABIFetcher.fetchABI (H := Reference.json)
             (H0 := CacheExamples.explorers)
             (Some CacheExamples.openClient) 1000 CacheExamples.mixedCase))
       2000 CacheExamples.lowerCase)
  = [].
Proof.
  rewrite (fetchABI_memoizes (H := Reference.json)
             (H0 := CacheExamples.explorers) CacheExamples.openClient
             1000 2000 CacheExamples.mixedCase CacheExamples.lowerCase);
    [reflexivity|reflexivity|reflexivity|reflexivity|reflexivity
    |discriminate|reflexivity|reflexivity].
Defined.

Section DataCacheProofs.
Import DataCache.
Context `{ABIFetcher.JSON}.

(** X18.  Through an open client and with a positive time to live (3600
    seconds when none is given; Redis rejects one that is not
    positive), [getCachedData] returns what
    [cacheData] stored under the same key until the time to live has
    passed, and [null] from then on; the lookups of every other key,
    also of one that differs by case only, are as they were. *)
Theorem data_cache_round_trip c now later key other data ttl :
  Redis.online c = true →
  0 < default 3600 ttl →
  ABIFetcher.parse (ABIFetcher.stringify data) = Ok data →
  ABIFetcher.stringify data ≠ "" →
  other ≠ key →
  getCachedData (cacheData (Some c) now key data ttl) later key
  = (if later <? now + default 3600 ttl then data else Js.JNull)
  ∧ getCachedData (cacheData (Some c) now key data ttl) later other
    = getCachedData (Some c) later other.
Proof.
  intros Ho _ Hp Hne Hother.
  unfold cacheData, getCachedData, Redis.setEx, Redis.get. rewrite Ho. cbn.
  rewrite lookup_insert_eq, lookup_insert_ne by done. split; [|done].
  destruct (later <? now + default 3600 ttl); [|done].
  unfold Js.truthyString.
  destruct (String.eqb_spec (ABIFetcher.stringify data) ""); [done|].
  cbn. by rewrite Hp.
Qed.

(** X19.  A client that is not there or not connected makes the cache a no-op:
    [cacheData] changes nothing and [getCachedData] returns [null];
    neither throws. *)
Theorem data_cache_without_connection redisClient now later key data ttl :
  (∀ c, redisClient = Some c → Redis.online c = false) →
  cacheData redisClient now key data ttl = redisClient
  ∧ getCachedData redisClient later key = Js.JNull.
Proof.
  intros Hoff. destruct redisClient as [c|]; [|done].
  unfold cacheData, getCachedData, Redis.setEx, Redis.get.
  by rewrite (Hoff c eq_refl).
Qed.

End DataCacheProofs.

Lemma data_cache_round_trip_witness :
  DataCache.getCachedData (H := Reference.json)
    (DataCache.cacheData (H := Reference.json) (Some CacheExamples.openClient)
       1000 "tx:1" (Js.JArr []) None)
    4599 "tx:1"
  = Js.JArr [].
Proof.
  apply (data_cache_round_trip (H := Reference.json) CacheExamples.openClient
           1000 4599 "tx:1" "TX:1" (Js.JArr []) None);
    [reflexivity..|discriminate|discriminate].
Defined.

Lemma data_cache_without_connection_witness :
  DataCache.getCachedData (H := Reference.json)
    (Some {| Redis.entries := ∅; Redis.online := false |}) 1000 "tx:1"
  = Js.JNull.
Proof.
  apply (data_cache_without_connection (H := Reference.json)
           (Some {| Redis.entries := ∅; Redis.online := false |}) 1000 1000
           "tx:1" (Js.JArr []) None).
  intros c Hc. injection Hc as <-. reflexivity.
Defined.

(** * The start of the server *)

Section ServerProofs.
Context `{ABIFetcher.JSON}.

(** X21.  The blockchain service is built while [config/database] still holds
    [null], so after the start its Redis client is [null] whatever the
    environment: nothing it is asked to cache can be read back, even when
    Redis is configured and connected and [getRedisClient()] returns the
    connected client. *)
Theorem service_cache_is_disabled env now later key data ttl :
  let process := Server.start env in
  Server.serviceClient process = None
  ∧ DataCache.getCachedData
      (DataCache.cacheData (Server.serviceClient process) now key data ttl)
      later key = Js.JNull
  ∧ ∀ url client connected,
      Database.REDIS_URL env = Some url →
      Js.truthyString url = true →
      Database.createClient env url = Ok client →
      Database.connect env client = Ok connected →
      Database.getRedisClient (Server.databaseClient process) = Some connected.
Proof.
  cbn zeta. split_and!; [done..|].
  intros url client connected Hu Ht Hc Hn.
  unfold Server.start, Database.getRedisClient, Database.connectRedis. cbn.
  by rewrite Hu, Ht, Hc, Hn.
Qed.

End ServerProofs.

Lemma service_cache_is_disabled_witness :
  Database.getRedisClient
    (Server.databaseClient (Server.start MoreExamples.redisReachable))
  = Some {| Redis.entries := ∅; Redis.online := true |}
  ∧ DataCache.getCachedData (H := Reference.json)
      (DataCache.cacheData (H := Reference.json)
         (Server.serviceClient (Server.start MoreExamples.redisReachable))
         1000 "tx:1" (Js.JArr []) None)
      1000 "tx:1" = Js.JNull.
Proof.
  destruct (service_cache_is_disabled (H := Reference.json)
              MoreExamples.redisReachable 1000 1000 "tx:1" (Js.JArr []) None)
    as (_ & Hnull & Hconnected).
  split; [|exact Hnull].
  apply (Hconnected "redis://localhost:6379"
           {| Redis.entries := ∅; Redis.online := false |});
    reflexivity.
Defined.

(** * The initialisation of the provider *)

Section ProviderInitProofs.
Import ProviderInit.

(** X22.  [initProvider] ends within its bound of three attempts.  It stops at
    the first attempt that succeeds, having slept 1000 ms times the
    number of the failure after each failed attempt; when the three
    attempts fail it throws "Failed to initialize provider after 3
    attempts" without a third sleep.  The provider object of the last
    attempt stays in [this.provider] either way. *)
Theorem initProvider_retries env :
  initProvider env
  = Some
      match firstSuccess env 3 0 with
      | Some k =>
          ({| provider :=
                Some (orElse (MONAD_RPC_URL env) (ETHEREUM_RPC_URL env));
              slept := (λ i, 1000 * Z.of_nat i) <$> seq 1 k;
              attempts := S k |}, Ok tt)
      | None =>
          ({| provider :=
                Some (orElse (MONAD_RPC_URL env) (ETHEREUM_RPC_URL env));
              slept := [1000; 2000];
              attempts := 3 |}, Throw failure)
      end.
Proof.
  unfold initProvider. cbn.
  destruct (tryBlock env 0); cbn; [done|].
  destruct (tryBlock env 1); cbn; [done|].
  by destruct (tryBlock env 2).
Qed.

(** X23.  Whatever the node answers, [initProvider] makes at most three
    attempts and sleeps at most 3000 ms in total. *)
Theorem initProvider_bounds env :
  ∃ st r,
    initProvider env = Some (st, r)
    ∧ (1 ≤ attempts st ≤ 3)%nat
    ∧ foldr Z.add 0 (slept st) ≤ 3000.
Proof.
  unfold initProvider. cbn.
  destruct (tryBlock env 0); cbn; [eexists _, _; split; [done|cbn; lia]|].
  destruct (tryBlock env 1); cbn; [eexists _, _; split; [done|cbn; lia]|].
  destruct (tryBlock env 2); cbn; eexists _, _; (split; [done|cbn; lia]).
Qed.

(** X24.  When neither URL variable gives a value, every attempt fails on the
    log line that reads the URL, so [initProvider] throws after three
    attempts and 3000 ms even when the node answers. *)
Theorem initProvider_without_url env :
  orElse (MONAD_RPC_URL env) (ETHEREUM_RPC_URL env) = None →
  initProvider env
  = Some ({| provider := Some None; slept := [1000; 2000]; attempts := 3 |},
          Throw failure).
Proof.
  intros Hu.
  assert (∀ n, throws (tryBlock env n) = true) as Hfail.
  { intros n. unfold tryBlock. rewrite Hu.
    by destruct (getNetwork env n). }
  unfold initProvider. cbn. rewrite Hu.
  pose proof (Hfail 0%nat) as H0. pose proof (Hfail 1%nat) as H1.
  pose proof (Hfail 2%nat) as H2.
  destruct (tryBlock env 0); [done|]. cbn.
  destruct (tryBlock env 1); [done|]. cbn.
  by destruct (tryBlock env 2).
Qed.

End ProviderInitProofs.

Lemma initProvider_without_url_witness :
  ProviderInit.initProvider MoreExamples.withoutUrl
  = Some ({| ProviderInit.provider := Some None;
             ProviderInit.slept := [1000; 2000];
             ProviderInit.attempts := 3 |},
          Throw ProviderInit.failure).
Proof.
  apply (initProvider_without_url MoreExamples.withoutUrl). reflexivity.
Defined.

(** * The logs of a contract *)

Section ExplorerLogsProofs.
Import ExplorerLogs.
Context `{Explorer}.

(** X17.  [fetchLogsFromMonadScan] never throws and never returns a falsy
    value: it returns the result of a reply with status "1", and the
    empty array when the call throws, when the reply has no status to
    read, when the status is not "1" and when the result is missing or
    falsy.  The block range defaults to 0 and "latest". *)
Theorem fetchLogs_degrades_to_empty contractAddress fromBlock toBlock :
  let reply :=
    monadScanGetLogs contractAddress (default (Js.JNum 0) fromBlock)
      (default (Js.JStr "latest") toBlock) in
  let logs := fetchLogsFromMonadScan contractAddress fromBlock toBlock in
  Js.truthy logs = true
  ∧ (throws reply = true → logs = Js.JArr [])
  ∧ (∀ data,
       reply = Ok data → throws (Js.prop data "status") = true →
       logs = Js.JArr [])
  ∧ (∀ data status,
       reply = Ok data → Js.prop data "status" = Ok status →
       ABIFetcher.isString status "1" = false → logs = Js.JArr [])
  ∧ (∀ data status,
       reply = Ok data → Js.prop data "status" = Ok status →
       ABIFetcher.isString status "1" = true →
       Js.prop data "result" = Ok None → logs = Js.JArr [])
  ∧ (∀ data status result,
       reply = Ok data → Js.prop data "status" = Ok status →
       ABIFetcher.isString status "1" = true →
       Js.prop data "result" = Ok (Some result) → Js.truthy result = false →
       logs = Js.JArr [])
  ∧ (∀ data status result,
       reply = Ok data → Js.prop data "status" = Ok status →
       ABIFetcher.isString status "1" = true →
       Js.prop data "result" = Ok (Some result) → Js.truthy result = true →
       logs = result).
Proof.
  cbn zeta. split_and!.
  - unfold fetchLogsFromMonadScan.
    destruct (monadScanGetLogs _ _ _) as [reply|]; cbn; [|done].
    destruct (Js.prop reply "status") as [status|]; cbn; [|done].
    destruct (ABIFetcher.isString status "1"); [|done].
    destruct (Js.prop reply "result") as [[result|]|]; cbn; [|done..].
    by destruct (Js.truthy result) eqn:Ht.
  - intros Ht. unfold fetchLogsFromMonadScan.
    by destruct (monadScanGetLogs _ _ _).
  - intros reply Hr Hs. unfold fetchLogsFromMonadScan.
    rewrite Hr. cbn. by destruct (Js.prop reply "status").
  - intros reply status Hr Hs Hi. unfold fetchLogsFromMonadScan.
    rewrite Hr. cbn. rewrite Hs. cbn. by rewrite Hi.
  - intros reply status Hr Hs Hi Hres. unfold fetchLogsFromMonadScan.
    rewrite Hr. cbn. rewrite Hs. cbn. by rewrite Hi, Hres.
  - intros reply status result Hr Hs Hi Hres Ht.
    unfold fetchLogsFromMonadScan.
    rewrite Hr. cbn. rewrite Hs. cbn. rewrite Hi, Hres. cbn. by rewrite Ht.
  - intros reply status result Hr Hs Hi Hres Ht.
    unfold fetchLogsFromMonadScan.
    rewrite Hr. cbn. rewrite Hs. cbn. rewrite Hi, Hres. cbn. by rewrite Ht.
Qed.

End ExplorerLogsProofs.

Lemma fetchLogs_degrades_to_empty_witness :
  ExplorerLogs.fetchLogsFromMonadScan (H := MoreExamples.explorerDown)
    Examples.addrB None None = Js.JArr [].
Proof.
  destruct (fetchLogs_degrades_to_empty (H := MoreExamples.explorerDown)
              Examples.addrB None None) as (_ & Hthrows & _).
  apply Hthrows. reflexivity.
Defined.

(** * The dispute prompt *)

Section IncludesLemmas.

Lemma prefix_refl s : String.prefix s s = true.
Proof.
  induction s as [|c s IH]; [done|]. cbn.
  by destruct (Ascii.ascii_dec c c).
Qed.

Lemma prefix_app s a b :
  String.prefix s a = true → String.prefix s (a +:+ b) = true.
Proof.
  revert a. induction s as [|c s IH]; intros a Hp; [by destruct (a +:+ b)|].
  destruct a as [|c' a]; [done|].
  change (String c' a +:+ b) with (String c' (a +:+ b)). simpl in *.
  destruct (Ascii.ascii_dec c c'); [by apply IH|done].
Qed.

Lemma includes_unfold s sub :
  Js.includes s sub
  = String.prefix sub s
    || match s with
       | EmptyString => false
       | String _ t => Js.includes t sub
       end.
Proof. by destruct s. Qed.

Lemma includes_refl s : Js.includes s s = true.
Proof. by rewrite includes_unfold, prefix_refl. Qed.

Lemma includes_app_l a b sub :
  Js.includes a sub = true → Js.includes (a +:+ b) sub = true.
Proof.
  induction a as [|c a IH].
  - rewrite includes_unfold, orb_false_r. intros Hp.
    rewrite includes_unfold. by rewrite (prefix_app sub "" b Hp).
  - rewrite includes_unfold. intros [Hp|Hi]%orb_true_iff.
    + rewrite includes_unfold. by rewrite (prefix_app sub (String c a) b Hp).
    + change (String c a +:+ b) with (String c (a +:+ b)).
      rewrite includes_unfold, (IH Hi). apply orb_true_r.
Qed.

Lemma includes_app_r a b sub :
  Js.includes b sub = true → Js.includes (a +:+ b) sub = true.
Proof.
  intros Hb. induction a as [|c a IH]; [done|].
  change (String c a +:+ b) with (String c (a +:+ b)).
  rewrite includes_unfold, IH. apply orb_true_r.
Qed.

Lemma includes_concat sep l x sub :
  x ∈ l → Js.includes x sub = true →
  Js.includes (String.concat sep l) sub = true.
Proof.
  intros Hx Hi. induction l as [|y l IH]; [by apply elem_of_nil in Hx|].
  apply elem_of_cons in Hx as [->|Hx].
  - destruct l as [|z l]; [done|]. cbn. by apply includes_app_l.
  - destruct l as [|z l]; [by apply elem_of_nil in Hx|].
    cbn. apply includes_app_r, includes_app_r. by apply IH.
Qed.

End IncludesLemmas.

Section PromptProofs.
Import Prompt.
Context `{Rendering}.

(** X13.  The prompt carries the transaction hash, the user's dispute text and
    the two rendered objects as they are, without escaping: each of them
    is a substring of the prompt. *)
Theorem prompt_embeds_its_inputs txHash contractAddress disputeDescription
    logs transactionDetails :
  let prompt :=
    buildDisputePrompt txHash contractAddress disputeDescription logs
      transactionDetails in
  Js.includes prompt txHash = true
  ∧ Js.includes prompt (templateText contractAddress) = true
  ∧ Js.includes prompt disputeDescription = true
  ∧ Js.includes prompt (renderDetails transactionDetails) = true
  ∧ Js.includes prompt (renderLogs logs) = true.
Proof.
  cbn zeta. unfold buildDisputePrompt.
  split_and!.
  - apply (includes_concat _ _ ("Transaction Hash: " +:+ txHash));
      [set_solver|apply includes_app_r, includes_refl].
  - apply (includes_concat _ _
             ("Contract Address: " +:+ templateText contractAddress));
      [set_solver|apply includes_app_r, includes_refl].
  - apply (includes_concat _ _ ("User Dispute: " +:+ disputeDescription));
      [set_solver|apply includes_app_r, includes_refl].
  - apply (includes_concat _ _ (renderDetails transactionDetails));
      [set_solver|apply includes_refl].
  - apply (includes_concat _ _ (renderLogs logs));
      [set_solver|apply includes_refl].
Qed.

End PromptProofs.

(** * The rate limiter *)

Section ValidationProofs.
Import Validation.

(** X25.  The window of a limiter is the argument when that is given and
    not 0; otherwise the parsed value of the environment when that is a
    number other than 0; otherwise 900000 ms.  The request cap is chosen
    in the same way, with 100 requests at the end.  So neither is ever
    0. *)
Theorem rate_limit_falls_back windowMs max message envWindow envMax :
  let l := createRateLimiter windowMs max message envWindow envMax in
  Validation.windowMs l
  = LimiterSpec.firstTruthy [windowMs; envWindow] 900000
  ∧ Validation.max l = LimiterSpec.firstTruthy [max; envMax] 100
  ∧ (∀ n, n ≠ 0 → windowMs = Some n → Validation.windowMs l = n)
  ∧ (∀ n, n ≠ 0 → windowMs = None ∨ windowMs = Some 0 →
          envWindow = Some n → Validation.windowMs l = n)
  ∧ (windowMs = None ∨ windowMs = Some 0 →
     envWindow = None ∨ envWindow = Some 0 →
     Validation.windowMs l = 900000)
  ∧ (∀ n, n ≠ 0 → max = Some n → Validation.max l = n)
  ∧ (∀ n, n ≠ 0 → max = None ∨ max = Some 0 →
          envMax = Some n → Validation.max l = n)
  ∧ (max = None ∨ max = Some 0 →
     envMax = None ∨ envMax = Some 0 →
     Validation.max l = 100)
  ∧ Validation.windowMs l ≠ 0
  ∧ Validation.max l ≠ 0.
Proof.
  assert (∀ a b d, orDefault (orNumber a b) d
                   = LimiterSpec.firstTruthy [a; b] d) as Hfirst.
  { intros [n|] [m|] d; cbn; repeat case_bool_decide;
      repeat match goal with
             | |- context [?x =? 0] => destruct (Z.eqb_spec x 0)
             end; cbn; try done;
      repeat match goal with
             | |- context [?x =? 0] => destruct (Z.eqb_spec x 0)
             end; done. }
  assert (∀ a b d n, n ≠ 0 → a = Some n →
                     LimiterSpec.firstTruthy [a; b] d = n) as Hargument.
  { intros a b d n Hn ->. cbn. by rewrite bool_decide_eq_false_2. }
  assert (∀ a b d n, n ≠ 0 → a = None ∨ a = Some 0 → b = Some n →
                     LimiterSpec.firstTruthy [a; b] d = n) as Henv.
  { intros a b d n Hn [-> | ->] ->; cbn; repeat case_bool_decide; done. }
  assert (∀ a b d, a = None ∨ a = Some 0 → b = None ∨ b = Some 0 →
                   LimiterSpec.firstTruthy [a; b] d = d) as Hlast.
  { intros a b d [-> | ->] [-> | ->]; cbn; repeat case_bool_decide; done. }
  assert (∀ a b d, d ≠ 0 → LimiterSpec.firstTruthy [a; b] d ≠ 0) as Hnz.
  { intros [n|] [m|] d Hd; cbn; repeat case_bool_decide; done. }
  cbn zeta. unfold createRateLimiter.
  cbn [Validation.windowMs Validation.max]. rewrite !Hfirst.
  split_and!; [done|done|apply Hargument|apply Henv|apply Hlast
              |apply Hargument|apply Henv|apply Hlast
              |by apply Hnz|by apply Hnz].
Qed.

End ValidationProofs.

(** * Further properties of the custom-ABI classifier *)

Section AbiOrderProofs.
Import Ethers ABIFetcher AbiOrder.
Context `{Lib}.

Lemma classified_events name shown logIndex pl :
  parsedEvents (AbiClassifier.classified name shown logIndex pl)
  = parsedEvents pl
  ∧ contractType (AbiClassifier.classified name shown logIndex pl)
    = contractType pl.
Proof.
  unfold AbiClassifier.classified.
  by destruct (AbiClassifier.bucketOfName name) as [[]|].
Qed.

Lemma abi_step_events iface pl log :
  parsedEvents (step iface pl log)
  = parsedEvents pl ++ option_list (eventOf iface log)
  ∧ contractType (step iface pl log) = contractType pl.
Proof.
  destruct (AbiClassifier.decoded iface log) as [[d shown]|] eqn:Hd.
  - rewrite (abi_step_decoded iface pl log d shown Hd).
    assert (eventOf iface log
            = Some (if AbiClassifier.readable (name d) shown then
                      {| ev_name := name d; ev_args := shown;
                         ev_logIndex := logIndex log; ev_error := None |}
                    else
                      {| ev_name := "Unknown"; ev_args := [];
                         ev_logIndex := logIndex log;
                         ev_error := Some outOfRange |})) as ->.
    { unfold AbiClassifier.decoded in Hd. unfold eventOf.
      destruct (parseLog iface log) as [[d'|]|]; [|done..].
      destruct (mapToString (args d')) as [shown'|]; [|done].
      injection Hd as -> ->.
      by destruct (AbiClassifier.readable (name d) shown). }
    destruct (AbiClassifier.readable (name d) shown); [|done]. cbn.
    by destruct (classified_events (name d) shown (logIndex log) pl)
      as (-> & ->).
  - unfold AbiClassifier.decoded in Hd. unfold step, eventOf.
    destruct (parseLog iface log) as [[d|]|]; cbn.
    + destruct (mapToString (args d)); [done|]. by cbn.
    + by rewrite app_nil_r.
    + done.
Qed.

Lemma abi_foldl_events iface logs : ∀ pl,
  parsedEvents (foldl (step iface) pl logs)
  = parsedEvents pl ++ omap (eventOf iface) logs
  ∧ contractType (foldl (step iface) pl logs) = contractType pl.
Proof.
  induction logs as [|log logs IH]; intros pl.
  - cbn. by rewrite app_nil_r.
  - cbn [foldl]. destruct (IH (step iface pl log)) as (-> & ->).
    destruct (abi_step_events iface pl log) as (-> & ->).
    by rewrite omap_cons_option_list, <- (assoc_L (++)).
Qed.

Lemma bucket_has_event iface log :
  is_Some (AbiClassifier.bucketOf iface log) → is_Some (eventOf iface log).
Proof.
  unfold AbiClassifier.bucketOf, AbiClassifier.decoded, eventOf.
  destruct (parseLog iface log) as [[d|]|]; [|by intros []..].
  destruct (mapToString (args d)) as [shown|]; [|by intros []].
  by destruct (AbiClassifier.readable (name d) shown).
Qed.

(** X6.  [parsedEvents] lists, in the order of the logs, one entry for every
    log that the ABI decodes or that makes the decoder throw.  The entry
    is the decoded event, or the "Unknown" placeholder with the message
    when the decoder threw and when the event is named as a transfer and
    has fewer arguments than its record reads; so a log that cannot be
    decoded or read does not stop the logs after it.  A log of no event
    of the ABI leaves no entry.  Every categorised record has its entry,
    the contract type is "Custom", and an ABI that cannot be loaded gives
    the empty result. *)
Theorem parsedEvents_follow_log_order logs contractAddress abi :
  let r := parseLogsWithABI logs contractAddress abi in
  parsedEvents r
  = match newInterface abi with
    | Ok iface => omap (eventOf iface) logs
    | Throw _ => []
    end
  ∧ (AbiClassifier.categorySize r ≤ length (parsedEvents r))%nat
  ∧ (length (parsedEvents r) ≤ length logs)%nat
  ∧ contractType r = "Custom".
Proof.
  cbn zeta. unfold parseLogsWithABI.
  destruct (newInterface abi) as [iface|]; [|by cbn; split_and!; [|lia..|]].
  destruct (abi_foldl_events iface logs emptyParsedLogs) as (-> & ->).
  rewrite abi_foldl_size. cbn.
  split_and!; [done| |apply omap_length_le|done].
  etrans; [apply (omap_length_mono (AbiClassifier.recordedIn iface)
                    (AbiClassifier.bucketOf iface)), recordedIn_bucketOf|].
  apply omap_length_mono, bucket_has_event.
Qed.

End AbiOrderProofs.
